(** * pkg/clients/ssl: operations on SslCertificate GCE resources

    A shallow embedding of [src/pkg/clients/ssl/ssl.go] and the properties
    of its certificate manager and operation waiter.

    Conventions of the embedding.
    - Go strings are [string]; [fmt.Sprintf] with the verbs [%s] and [%d]
      is written out as concatenation, [%d] through [fmt_d].
    - A slice is a [list]; the nil slice and the empty slice are both [[]]
      (the code only ranges over slices and hands them on).
    - A pointer the code dereferences after a nil test is an [option].  So
      are the pointers that the methods of [Error] dereference with no
      test, [s.operation.Error] and the entries of its [Errors] slice;
      there the methods yield [None] for the run-time panic.
    - The generated compute client returns from [Do()] either a value and a
      nil error or a nil value and an error: a sum type.
    - Calls that leave the package (RPCs, [klog], the [select] on the
      context and the timer) are recorded in a chronological trace; what
      the outside world answers is read from [compute.Service] and
      [context.Context]. *)

From Stdlib Require Import ZArith String List Bool Arith Lia DecimalString DecimalZ DecimalPos.
Import ListNotations.

Local Open Scope list_scope.
Local Open Scope string_scope.

(** [%d] of a Go integer. *)
Definition fmt_d (z : Z) : string := NilZero.string_of_int (Z.to_int z).

(** [strings.Join(elems, sep)]. *)
Definition strings_Join (elems : list string) (sep : string) : string :=
  String.concat sep elems.

(** The built-in [append(s, x)]. *)
Definition slice_append {A : Type} (s : list A) (x : A) : list A := (s ++ [x])%list.

(** A non-nil error value made outside this package (by the compute client,
    the transport below it, or the context).  The package looks at such a
    value through its [Error()] method only, and otherwise hands it on. *)
Record extern_error : Type := { extern_Error : string }.

(** ** google.golang.org/api/compute/v1: the shapes the package reads *)
Module compute.

Module OperationErrorErrors.
Record t : Type := { Code : string; Message : string }.
End OperationErrorErrors.

(** [Errors []*OperationErrorErrors]: a slice of pointers, an entry of
    which may be nil. *)
Module OperationError.
Record t : Type := { Errors : list (option OperationErrorErrors.t) }.
End OperationError.

Module Operation.
Record t : Type := {
  Name : string;
  Status : string;
  HttpErrorMessage : string;
  HttpErrorStatusCode : Z;
  Error : option OperationError.t
}.
End Operation.

Module SslCertificateManagedSslCertificate.
Record t : Type := { Domains : list string }.
End SslCertificateManagedSslCertificate.

Module SslCertificate.
Record t : Type := {
  Managed : option SslCertificateManagedSslCertificate.t;
  Name : string;
  Type_ : string
}.
End SslCertificate.

Module SslCertificateList.
Record t : Type := { Items : list SslCertificate.t }.
End SslCertificateList.

(** What the remote service answers.  The four certificate RPCs are
    issued once per call of the manager; the status query is issued once
    per turn of the wait loop, so its answer depends on how many status
    queries were answered before. *)
Record Service : Type := {
  SslCertificates_Insert : string -> SslCertificate.t -> Operation.t + extern_error;
  SslCertificates_Delete : string -> string -> Operation.t + extern_error;
  SslCertificates_Get : string -> string -> SslCertificate.t + extern_error;
  SslCertificates_List : string -> SslCertificateList.t + extern_error;
  GlobalOperations_Get : nat -> string -> string -> Operation.t + extern_error
}.

End compute.

(** ** context.Context, as the wait loop sees it *)
Module context.

(** [Done_first k] describes the [k]-th execution of the loop's [select]:
    [Some e] when [ctx.Done()] delivers before the ten-second timer and
    [ctx.Err()] is then [e] (non-nil, by the contract of [Context]);
    [None] when the timer fires first. *)
Record Context : Type := { Done_first : nat -> option extern_error }.

End context.

(** ** The calls that leave the package, and the monad that records them *)
Module rt.
Import compute.
Local Open Scope list_scope.

Inductive Call : Type :=
| Insert (project : string) (sslCertificate : SslCertificate.t)
| Delete (project name : string)
| Get (project name : string)
| List (project : string)
| OperationsGet (project operation : string)
| Select
| Infof (line : string).

Definition Trace : Type := list Call.

Definition M (A : Type) : Type := Trace -> A * Trace.

Definition ret {A : Type} (a : A) : M A := fun tr => (a, tr).

Definition bind {A B : Type} (m : M A) (f : A -> M B) : M B :=
  fun tr => let (a, tr') := m tr in f a tr'.

Definition emit (c : Call) : M unit := fun tr => (tt, tr ++ [c]).

Definition is_OperationsGet (c : Call) : bool :=
  match c with OperationsGet _ _ => true | _ => false end.

Definition is_Select (c : Call) : bool :=
  match c with Select => true | _ => false end.

(** Number of status queries, and of [select]s, already in a trace. *)
Definition polls (tr : Trace) : nat := length (filter is_OperationsGet tr).
Definition selects (tr : Trace) : nat := length (filter is_Select tr).

(** [s.service.SslCertificates.Insert(project, cert).Do()] and its
    siblings: record the call, read the answer. *)
Definition SslCertificates_Insert_Do (svc : Service) (project : string)
    (sslCertificate : SslCertificate.t) : M (Operation.t + extern_error) :=
  fun tr => (SslCertificates_Insert svc project sslCertificate,
             tr ++ [Insert project sslCertificate]).

Definition SslCertificates_Delete_Do (svc : Service) (project name : string)
    : M (Operation.t + extern_error) :=
  fun tr => (SslCertificates_Delete svc project name, tr ++ [Delete project name]).

Definition SslCertificates_Get_Do (svc : Service) (project name : string)
    : M (SslCertificate.t + extern_error) :=
  fun tr => (SslCertificates_Get svc project name, tr ++ [Get project name]).

Definition SslCertificates_List_Do (svc : Service) (project : string)
    : M (SslCertificateList.t + extern_error) :=
  fun tr => (SslCertificates_List svc project, tr ++ [List project]).

Definition GlobalOperations_Get_Do (svc : Service) (project operation : string)
    : M (Operation.t + extern_error) :=
  fun tr => (GlobalOperations_Get svc (polls tr) project operation,
             tr ++ [OperationsGet project operation]).

(** [select { case <-ctx.Done(): ...; case <-time.After(10 * time.Second): }] *)
Definition select (ctx : context.Context) : M (option extern_error) :=
  fun tr => (context.Done_first ctx (selects tr), tr ++ [Select]).

Definition klog_Infof (line : string) : M unit := emit (Infof line).

End rt.

Notation "x <- m ;; k" := (rt.bind m (fun x => k))
  (at level 61, m at next level, right associativity).
Notation "m ;; k" := (rt.bind m (fun _ => k))
  (at level 61, right associativity).

(** ** package ssl *)
Module ssl.
Import compute.
Import rt.

Definition codeQuotaExceeded : string := "QUOTA_EXCEEDED".
Definition statusDone : string := "DONE".
Definition typeManaged : string := "MANAGED".

(** [type Error struct { operation *compute.Operation }] *)
Record Error : Type := { operation : Operation.t }.

(** The loop of [Error()] that renders each structured error, from the
    strings gathered so far; [None] is the nil dereference [err.Code] on a
    nil entry. *)
Fixpoint computeErrors_range (computeErrors : list string)
    (errs : list (option OperationErrorErrors.t)) : option (list string) :=
  match errs with
  | [] => Some computeErrors
  | None :: _ => None
  | Some err :: rest =>
      computeErrors_range
        (slice_append computeErrors
           ("(" ++ OperationErrorErrors.Code err ++ ": "
                ++ OperationErrorErrors.Message err ++ ")"))
        rest
  end.

(** [var computeErrors []string], then the loop. *)
Definition computeErrors_of (errs : list (option OperationErrorErrors.t))
    : option (list string) :=
  computeErrors_range [] errs.

(** [func (s *Error) Error() string]; [None] is the nil dereference of
    [s.operation.Error] or of an entry of its [Errors]. *)
Definition Error_Error (s : Error) : option string :=
  match Operation.Error (operation s) with
  | None => None
  | Some e =>
      match computeErrors_of (OperationError.Errors e) with
      | None => None
      | Some computeErrors =>
          Some ("operation " ++ Operation.Name (operation s) ++ " "
                ++ Operation.Status (operation s) ++ ". Status: "
                ++ Operation.HttpErrorMessage (operation s) ++ " ("
                ++ fmt_d (Operation.HttpErrorStatusCode (operation s))
                ++ "), errors: " ++ strings_Join computeErrors ", ")
      end
  end.

(** The loop of [IsQuotaExceeded()], with its early return; [None] is the
    nil dereference [err.Code] on a nil entry that the loop reaches. *)
Fixpoint IsQuotaExceeded_range (errs : list (option OperationErrorErrors.t))
    : option bool :=
  match errs with
  | [] => Some false
  | None :: _ => None
  | Some err :: rest =>
      if OperationErrorErrors.Code err =? codeQuotaExceeded then Some true
      else IsQuotaExceeded_range rest
  end.

(** [func (s *Error) IsQuotaExceeded() bool]; [None] is the nil
    dereference of [s.operation.Error] or of an entry that the loop
    reaches. *)
Definition IsQuotaExceeded (s : Error) : option bool :=
  match Operation.Error (operation s) with
  | None => None
  | Some e => IsQuotaExceeded_range (OperationError.Errors e)
  end.

(** The values of Go's [error] interface that [Create], [Delete] and
    [waitFor] return, by dynamic type: an error handed on from outside,
    the value built by [fmt.Errorf], or [*Error]. *)
Inductive error_value : Type :=
| Extern (err : extern_error)
| Errorf (message : string)
| OperationErr (s : Error).

Definition error : Type := option error_value.
Definition nil_error : error := None.

(** [type sslImpl struct { service *compute.Service; projectID string }] *)
Record sslImpl : Type := { service : Service; projectID : string }.

(** The wait loop may run for ever: it is run with a bound on the number
    of turns, and [Running] says the bound was reached with the loop
    still polling. *)
Inductive outcome (A : Type) : Type :=
| Returned (a : A)
| Running.
Arguments Returned {A} a.
Arguments Running {A}.

(** One turn of the [for] loop of [waitFor]: [Some e] when the turn
    executes a [return e], [None] when it falls out of the [select] and
    the loop goes round again. *)
Definition waitFor_turn (s : sslImpl) (ctx : context.Context)
    (operationName : string) : M (option error) :=
  klog_Infof ("Wait for operation " ++ operationName) ;;
  r <- GlobalOperations_Get_Do (service s) (projectID s) operationName ;;
  match r with
  | inr err =>
      ret (Some (Some (Errorf ("could not get operation " ++ operationName
                                 ++ ": " ++ extern_Error err))))
  | inl operation =>
      if Operation.Status operation =? statusDone then
        klog_Infof ("Operation " ++ operationName ++ " done") ;;
        match Operation.Error operation with
        | None => ret (Some nil_error)
        | Some _ => ret (Some (Some (OperationErr {| operation := operation |})))
        end
      else
        c <- select ctx ;;
        match c with
        | Some err => ret (Some (Some (Extern err)))
        | None => ret None
        end
  end.

(** [func (s sslImpl) waitFor(ctx context.Context, operationName string) error] *)
Fixpoint waitFor (turns : nat) (s : sslImpl) (ctx : context.Context)
    (operationName : string) : M (outcome error) :=
  match turns with
  | O => ret Running
  | S turns' =>
      r <- waitFor_turn s ctx operationName ;;
      match r with
      | Some e => ret (Returned e)
      | None => waitFor turns' s ctx operationName
      end
  end.

(** The certificate [Create] builds. *)
Definition managed_certificate (name : string) (domains : list string)
    : SslCertificate.t :=
  {| SslCertificate.Managed :=
       Some {| SslCertificateManagedSslCertificate.Domains := domains |};
     SslCertificate.Name := name;
     SslCertificate.Type_ := typeManaged |}.

(** [func (s sslImpl) Create(ctx context.Context, name string, domains []string) error] *)
Definition Create (turns : nat) (s : sslImpl) (ctx : context.Context)
    (name : string) (domains : list string) : M (outcome error) :=
  let sslCertificate := managed_certificate name domains in
  r <- SslCertificates_Insert_Do (service s) (projectID s) sslCertificate ;;
  match r with
  | inr err => ret (Returned (Some (Extern err)))
  | inl operation => waitFor turns s ctx (Operation.Name operation)
  end.

(** [func (s sslImpl) Delete(ctx context.Context, name string) error] *)
Definition Delete (turns : nat) (s : sslImpl) (ctx : context.Context)
    (name : string) : M (outcome error) :=
  r <- SslCertificates_Delete_Do (service s) (projectID s) name ;;
  match r with
  | inr err => ret (Returned (Some (Extern err)))
  | inl operation => waitFor turns s ctx (Operation.Name operation)
  end.

(** [func (s sslImpl) Get(name string)], returning a certificate and an error *)
Definition Get (s : sslImpl) (name : string)
    : M (SslCertificate.t + extern_error) :=
  SslCertificates_Get_Do (service s) (projectID s) name.

(** [func (s sslImpl) List() ([]*compute.SslCertificate, error)] *)
Definition List (s : sslImpl)
    : M (list SslCertificate.t * option extern_error) :=
  r <- SslCertificates_List_Do (service s) (projectID s) ;;
  match r with
  | inr err => ret ([], Some err)
  | inl sslCertificates => ret (SslCertificateList.Items sslCertificates, None)
  end.

Section WithNotFound.

(** [utilshttp.IsNotFound], from a package outside this one: any
    classifier of errors. *)
Variable IsNotFound : extern_error -> bool.

(** [func (s sslImpl) Exists(name string) (bool, error)] *)
Definition Exists (s : sslImpl) (name : string)
    : M (bool * option extern_error) :=
  r <- Get s name ;;
  match r with
  | inl _ => ret (true, None)
  | inr err =>
      if IsNotFound err then ret (false, None)
      else ret (false, Some err)
  end.

End WithNotFound.

Section WithComputeNew.

(** [*http.Client] and [compute.New], from packages outside this one:
    any constructor of a service from a client, which may fail. *)
Variable Client : Type.
Variable compute_New : Client -> Service + extern_error.

(** [func New(client *http.Client, projectID string) (Ssl, error)] *)
Definition New (client : Client) (projectID : string)
    : sslImpl + extern_error :=
  match compute_New client with
  | inr err => inr err
  | inl service => inl {| service := service; projectID := projectID |}
  end.

End WithComputeNew.

End ssl.

(** ** Vocabulary of the statements *)

(** [strings.Contains(s, substr)], as a proposition. *)
Definition contains (s substr : string) : Prop :=
  exists before after, s = before ++ substr ++ after.

Section Waiting.
Import compute.

Variable s : ssl.sslImpl.
Variable ctx : context.Context.
Variable operationName : string.

(** The answer to status query number [k] for the awaited operation. *)
Definition fetch (k : nat) : Operation.t + extern_error :=
  GlobalOperations_Get (ssl.service s) k (ssl.projectID s) operationName.

(** A turn that begins with [p] status queries and [q] selects behind it
    meets no terminal condition: the fetch succeeds, the status is not
    DONE, and the timer fires before the context is done. *)
Definition turn_pending (p q : nat) : bool :=
  match fetch p with
  | inl operation =>
      negb (Operation.Status operation =? ssl.statusDone)
      && match context.Done_first ctx q with None => true | Some _ => false end
  | inr _ => false
  end.

(** The next [n] turns meet no terminal condition. *)
Fixpoint pending_for (n p q : nat) : bool :=
  match n with
  | O => true
  | S n' => turn_pending p q && pending_for n' (S p) (S q)
  end.

(** What a turn that goes round again adds to the trace, and what [n]
    such turns add. *)
Definition wait_line : rt.Call :=
  rt.Infof ("Wait for operation " ++ operationName).
Definition done_line : rt.Call :=
  rt.Infof ("Operation " ++ operationName ++ " done").
Definition status_query : rt.Call :=
  rt.OperationsGet (ssl.projectID s) operationName.

Definition pending_turn_calls : rt.Trace :=
  [wait_line; status_query; rt.Select].

Definition pending_calls (n : nat) : rt.Trace :=
  concat (repeat pending_turn_calls n).

End Waiting.

(** A call of [Create] or of [Delete], to state what the two share. *)
Inductive request : Type :=
| CreateRequest (name : string) (domains : list string)
| DeleteRequest (name : string).

(** The answer of the collaborator to the RPC that opens the call. *)
Definition initial_rpc (s : ssl.sslImpl) (req : request)
    : compute.Operation.t + extern_error :=
  match req with
  | CreateRequest name domains =>
      compute.SslCertificates_Insert (ssl.service s) (ssl.projectID s)
        (ssl.managed_certificate name domains)
  | DeleteRequest name =>
      compute.SslCertificates_Delete (ssl.service s) (ssl.projectID s) name
  end.

(** The trace entry of that RPC. *)
Definition initial_call (s : ssl.sslImpl) (req : request) : rt.Call :=
  match req with
  | CreateRequest name domains =>
      rt.Insert (ssl.projectID s) (ssl.managed_certificate name domains)
  | DeleteRequest name => rt.Delete (ssl.projectID s) name
  end.

Definition run (turns : nat) (s : ssl.sslImpl) (ctx : context.Context)
    (req : request) : rt.M (ssl.outcome ssl.error) :=
  match req with
  | CreateRequest name domains => ssl.Create turns s ctx name domains
  | DeleteRequest name => ssl.Delete turns s ctx name
  end.

(** The calls the wait loop makes. *)
Definition wait_call (c : rt.Call) : bool :=
  match c with
  | rt.Infof _ | rt.OperationsGet _ _ | rt.Select => true
  | _ => false
  end.

(** The project an RPC is addressed to; [None] for the calls that are not
    RPCs. *)
Definition rpc_project (c : rt.Call) : option string :=
  match c with
  | rt.Insert project _ | rt.Delete project _ | rt.Get project _
  | rt.List project | rt.OperationsGet project _ => Some project
  | rt.Select | rt.Infof _ => None
  end.

(** Every RPC among [calls] is addressed to [project]. *)
Definition scoped_to (project : string) (calls : rt.Trace) : Prop :=
  forall c p, In c calls -> rpc_project c = Some p -> p = project.

(** How [Error()] renders one structured error. *)
Definition rendered (err : compute.OperationErrorErrors.t) : string :=
  "(" ++ compute.OperationErrorErrors.Code err ++ ": "
      ++ compute.OperationErrorErrors.Message err ++ ")".

(** ** Test doubles: a scripted service and contexts *)
Module fake.
Import compute.

Definition operation (name status : string) (err : option OperationError.t)
    : Operation.t :=
  {| Operation.Name := name; Operation.Status := status;
     Operation.HttpErrorMessage := ""; Operation.HttpErrorStatusCode := 0%Z;
     Operation.Error := err |}.

Definition certificate (name : string) : SslCertificate.t :=
  ssl.managed_certificate name [(name ++ ".example.com")%string].

Definition not_found : extern_error :=
  {| extern_Error := "googleapi: Error 404: not found" |}.
Definition unavailable : extern_error :=
  {| extern_Error := "connection refused" |}.
Definition canceled : extern_error :=
  {| extern_Error := "context canceled" |}.

Definition IsNotFound (err : extern_error) : bool :=
  extern_Error err =? extern_Error not_found.

(** A service on which every mutation starts an operation that answers
    RUNNING to the first [running] status queries and then [final];
    from query number [broken] on the status query fails.  The
    certificates [cert-a] and [cert-b] exist, [cert-x] cannot be read. *)
Definition service (running broken : nat) (final : Operation.t) : Service :=
  {| SslCertificates_Insert := fun _ cert =>
       inl (operation ("op-" ++ SslCertificate.Name cert) "PENDING" None);
     SslCertificates_Delete := fun _ name =>
       if name =? "cert-missing" then inr not_found
       else inl (operation ("op-" ++ name) "PENDING" None);
     SslCertificates_Get := fun _ name =>
       if (name =? "cert-a") || (name =? "cert-b") then inl (certificate name)
       else if name =? "cert-x" then inr unavailable
       else inr not_found;
     SslCertificates_List := fun project =>
       if project =? "empty-project" then inl {| SslCertificateList.Items := [] |}
       else if project =? "down-project" then inr unavailable
       else inl {| SslCertificateList.Items :=
                     [certificate "cert-b"; certificate "cert-a"] |};
     GlobalOperations_Get := fun k _ name =>
       if (broken <=? k)%nat then inr unavailable
       else if (k <? running)%nat then inl (operation name "RUNNING" None)
       else inl final |}.

Definition manager (running broken : nat) (final : Operation.t) : ssl.sslImpl :=
  {| ssl.service := service running broken final; ssl.projectID := "project-1" |}.

(** A context that is never done, and one that is done from select
    number [k] on. *)
Definition background : context.Context :=
  {| context.Done_first := fun _ => None |}.
Definition cancelled_from (k : nat) : context.Context :=
  {| context.Done_first := fun i => if (k <=? i)%nat then Some canceled else None |}.

Definition invalid_entry : OperationErrorErrors.t :=
  {| OperationErrorErrors.Code := "INVALID";
     OperationErrorErrors.Message := "bad domain" |}.
Definition quota_entry : OperationErrorErrors.t :=
  {| OperationErrorErrors.Code := "QUOTA_EXCEEDED";
     OperationErrorErrors.Message := "limit reached" |}.

Definition quota_errors : OperationError.t :=
  {| OperationError.Errors := [Some invalid_entry; Some quota_entry] |}.

(** Error objects with a nil entry, before and after the quota entry. *)
Definition nil_then_quota : OperationError.t :=
  {| OperationError.Errors := [None; Some quota_entry] |}.
Definition quota_then_nil : OperationError.t :=
  {| OperationError.Errors := [Some quota_entry; None] |}.

Definition no_errors : OperationError.t := {| OperationError.Errors := [] |}.

(** A constructor of services that refuses the absent client. *)
Definition compute_New (final : Operation.t) (client : option unit)
    : Service + extern_error :=
  match client with
  | Some _ => inl (service 0 9 final)
  | None => inr {| extern_Error := "client is nil" |}
  end.

End fake.

(** ** The trace counters *)

Lemma polls_app (tr tr' : rt.Trace) :
  rt.polls (tr ++ tr')%list = rt.polls tr + rt.polls tr'.
Proof. unfold rt.polls. now rewrite filter_app, length_app. Qed.

Lemma selects_app (tr tr' : rt.Trace) :
  rt.selects (tr ++ tr')%list = rt.selects tr + rt.selects tr'.
Proof. unfold rt.selects. now rewrite filter_app, length_app. Qed.

(** ** One turn of the wait loop, case by case *)

Section WaitingFacts.
Import compute.

Variable s : ssl.sslImpl.
Variable ctx : context.Context.
Variable operationName : string.

Lemma waitFor_turn_fetch_failed (tr : rt.Trace) (err : extern_error) :
  fetch s operationName (rt.polls tr) = inr err ->
  ssl.waitFor_turn s ctx operationName tr =
    (Some (Some (ssl.Errorf ("could not get operation " ++ operationName
                               ++ ": " ++ extern_Error err))),
     (tr ++ [wait_line operationName; status_query s operationName])%list).
Proof.
  intros Hf. unfold ssl.waitFor_turn, rt.bind, rt.klog_Infof, rt.emit,
    rt.GlobalOperations_Get_Do.
  rewrite polls_app. cbn [rt.polls filter rt.is_OperationsGet length].
  rewrite Nat.add_0_r. unfold fetch in Hf. rewrite Hf.
  unfold rt.ret. now rewrite <- app_assoc.
Qed.

Lemma waitFor_turn_done (tr : rt.Trace) (operation : Operation.t) :
  fetch s operationName (rt.polls tr) = inl operation ->
  Operation.Status operation = ssl.statusDone ->
  ssl.waitFor_turn s ctx operationName tr =
    (Some (match Operation.Error operation with
           | None => ssl.nil_error
           | Some _ => Some (ssl.OperationErr {| ssl.operation := operation |})
           end),
     (tr ++ [wait_line operationName; status_query s operationName; done_line operationName])%list).
Proof.
  intros Hf Hs. unfold ssl.waitFor_turn, rt.bind, rt.klog_Infof, rt.emit,
    rt.GlobalOperations_Get_Do.
  rewrite polls_app. cbn [rt.polls filter rt.is_OperationsGet length].
  rewrite Nat.add_0_r. unfold fetch in Hf. rewrite Hf.
  rewrite Hs, String.eqb_refl. rewrite <- !app_assoc. cbn [app].
  now destruct (Operation.Error operation).
Qed.

Lemma waitFor_turn_not_done (tr : rt.Trace) (operation : Operation.t) :
  fetch s operationName (rt.polls tr) = inl operation ->
  Operation.Status operation <> ssl.statusDone ->
  ssl.waitFor_turn s ctx operationName tr =
    (match context.Done_first ctx (rt.selects tr) with
     | Some err => Some (Some (ssl.Extern err))
     | None => None
     end,
     (tr ++ [wait_line operationName; status_query s operationName; rt.Select])%list).
Proof.
  intros Hf Hs. unfold ssl.waitFor_turn, rt.bind, rt.klog_Infof, rt.emit,
    rt.GlobalOperations_Get_Do, rt.select.
  rewrite polls_app. cbn [rt.polls filter rt.is_OperationsGet length].
  rewrite Nat.add_0_r. unfold fetch in Hf. rewrite Hf.
  apply String.eqb_neq in Hs. rewrite Hs.
  rewrite <- !app_assoc. cbn [app]. rewrite selects_app.
  cbn [rt.selects filter rt.is_Select length]. rewrite Nat.add_0_r.
  now destruct (context.Done_first ctx (rt.selects tr)).
Qed.

(** ** Turns that go round again *)

Lemma pending_for_S (n p q : nat) :
  pending_for s ctx operationName (S n) p q =
  turn_pending s ctx operationName p q && pending_for s ctx operationName n (S p) (S q).
Proof. reflexivity. Qed.

Lemma pending_for_at (n : nat) :
  forall p q k,
    pending_for s ctx operationName n p q = true -> k < n ->
    turn_pending s ctx operationName (p + k) (q + k) = true.
Proof.
  induction n as [|n IH]; intros p q k H Hk; [lia|].
  rewrite pending_for_S in H. apply andb_prop in H as [H0 H].
  destruct k as [|k].
  - now rewrite !Nat.add_0_r.
  - rewrite !Nat.add_succ_r, <- !Nat.add_succ_l. apply IH; [assumption|lia].
Qed.

Lemma turn_pending_inv (p q : nat) :
  turn_pending s ctx operationName p q = true ->
  exists operation,
    fetch s operationName p = inl operation /\
    Operation.Status operation <> ssl.statusDone /\
    context.Done_first ctx q = None.
Proof.
  unfold turn_pending. destruct (fetch s operationName p) as [operation|err]; [|discriminate].
  intros H. apply andb_prop in H as [Hs Hc]. exists operation.
  repeat split.
  - apply String.eqb_neq. now apply negb_true_iff.
  - now destruct (context.Done_first ctx q).
Qed.

Lemma turn_pending_intro (p q : nat) (operation : Operation.t) :
  fetch s operationName p = inl operation ->
  Operation.Status operation <> ssl.statusDone ->
  context.Done_first ctx q = None ->
  turn_pending s ctx operationName p q = true.
Proof.
  intros Hf Hs Hc. unfold turn_pending. rewrite Hf, Hc.
  apply String.eqb_neq in Hs. now rewrite Hs.
Qed.

Lemma waitFor_turn_pending (tr : rt.Trace) :
  turn_pending s ctx operationName (rt.polls tr) (rt.selects tr) = true ->
  ssl.waitFor_turn s ctx operationName tr =
    (None, (tr ++ pending_turn_calls s operationName)%list).
Proof.
  intros H. destruct (turn_pending_inv _ _ H) as (operation & Hf & Hs & Hc).
  rewrite (waitFor_turn_not_done tr operation Hf Hs), Hc. reflexivity.
Qed.

Lemma polls_pending_turn (tr : rt.Trace) :
  rt.polls (tr ++ pending_turn_calls s operationName)%list = S (rt.polls tr).
Proof. rewrite polls_app. cbn. lia. Qed.

Lemma selects_pending_turn (tr : rt.Trace) :
  rt.selects (tr ++ pending_turn_calls s operationName)%list = S (rt.selects tr).
Proof. rewrite selects_app. cbn. lia. Qed.

Lemma polls_pending_calls (n : nat) : rt.polls (pending_calls s operationName n) = n.
Proof.
  induction n as [|n IH]; [reflexivity|].
  unfold pending_calls in *. cbn [repeat concat].
  rewrite polls_app, IH. reflexivity.
Qed.

Lemma selects_pending_calls (n : nat) : rt.selects (pending_calls s operationName n) = n.
Proof.
  induction n as [|n IH]; [reflexivity|].
  unfold pending_calls in *. cbn [repeat concat].
  rewrite selects_app, IH. reflexivity.
Qed.

Lemma pending_calls_S (n : nat) :
  pending_calls s operationName (S n) =
  (pending_turn_calls s operationName ++ pending_calls s operationName n)%list.
Proof. reflexivity. Qed.

(** [n] pending turns use up [n] turns of the bound and leave the loop
    where it was, [n] status queries later. *)
Lemma waitFor_pending (n : nat) :
  forall (tr : rt.Trace) (turns : nat),
    pending_for s ctx operationName n (rt.polls tr) (rt.selects tr) = true ->
    ssl.waitFor (n + turns) s ctx operationName tr =
    ssl.waitFor turns s ctx operationName (tr ++ pending_calls s operationName n)%list.
Proof.
  induction n as [|n IH]; intros tr turns H.
  - cbn. now rewrite app_nil_r.
  - rewrite pending_for_S in H. apply andb_prop in H as [H0 H].
    cbn [Nat.add ssl.waitFor]. unfold rt.bind at 1.
    rewrite (waitFor_turn_pending tr H0).
    rewrite IH.
    + now rewrite pending_calls_S, app_assoc.
    + now rewrite polls_pending_turn, selects_pending_turn.
Qed.

(** The loop returns only from a turn that meets a terminal condition,
    after turns that met none. *)
Lemma waitFor_returned_inv (turns : nat) :
  forall (tr tr' : rt.Trace) (r : ssl.error),
    ssl.waitFor turns s ctx operationName tr = (ssl.Returned r, tr') ->
    exists n,
      n < turns /\
      pending_for s ctx operationName n (rt.polls tr) (rt.selects tr) = true /\
      ssl.waitFor_turn s ctx operationName (tr ++ pending_calls s operationName n)%list
        = (Some r, tr').
Proof.
  induction turns as [|turns IH]; intros tr tr' r H.
  - discriminate.
  - cbn [ssl.waitFor] in H. unfold rt.bind at 1 in H.
    destruct (ssl.waitFor_turn s ctx operationName tr) as [[e|] tr1] eqn:Ht.
    + unfold rt.ret in H. injection H as -> ->.
      exists 0. repeat split; [lia|]. cbn. now rewrite app_nil_r.
    + assert (Hp : turn_pending s ctx operationName (rt.polls tr) (rt.selects tr) = true).
      { unfold turn_pending.
        destruct (fetch s operationName (rt.polls tr)) as [operation|err] eqn:Hf.
        - destruct (String.eqb_spec (Operation.Status operation) ssl.statusDone) as [Hs|Hs].
          + rewrite (waitFor_turn_done tr operation Hf Hs) in Ht. discriminate.
          + rewrite (waitFor_turn_not_done tr operation Hf Hs) in Ht.
            destruct (context.Done_first ctx (rt.selects tr)); [discriminate|reflexivity].
        - rewrite (waitFor_turn_fetch_failed tr err Hf) in Ht. discriminate. }
      rewrite (waitFor_turn_pending tr Hp) in Ht. injection Ht as <-.
      apply IH in H as (n & Hn & Hpn & Hr).
      rewrite polls_pending_turn, selects_pending_turn in Hpn.
      exists (S n). split; [lia|]. split.
      * rewrite pending_for_S, Hp, Hpn. reflexivity.
      * now rewrite pending_calls_S, app_assoc.
Qed.

End WaitingFacts.

Section WaitingRuns.
Import compute.

Variable s : ssl.sslImpl.
Variable ctx : context.Context.
Variable operationName : string.

Lemma polls_after_pending (tr : rt.Trace) (n : nat) :
  rt.polls (tr ++ pending_calls s operationName n)%list = rt.polls tr + n.
Proof. now rewrite polls_app, polls_pending_calls. Qed.

Lemma selects_after_pending (tr : rt.Trace) (n : nat) :
  rt.selects (tr ++ pending_calls s operationName n)%list = rt.selects tr + n.
Proof. now rewrite selects_app, selects_pending_calls. Qed.

(** A turn that returns, reached through [n] pending turns, decides the
    loop whatever is left of the bound. *)
Lemma waitFor_reaches (tr tr' : rt.Trace) (n turns : nat) (r : ssl.error) :
  pending_for s ctx operationName n (rt.polls tr) (rt.selects tr) = true ->
  ssl.waitFor_turn s ctx operationName (tr ++ pending_calls s operationName n)%list
    = (Some r, tr') ->
  n < turns ->
  ssl.waitFor turns s ctx operationName tr = (ssl.Returned r, tr').
Proof.
  intros Hp Ht Hn.
  replace turns with (n + S (turns - S n)) by lia.
  rewrite (waitFor_pending s ctx operationName n tr _ Hp).
  cbn [ssl.waitFor]. unfold rt.bind at 1. now rewrite Ht.
Qed.

(** The loop still runs after [n] pending turns. *)
Lemma waitFor_still_running (tr : rt.Trace) (n : nat) :
  pending_for s ctx operationName n (rt.polls tr) (rt.selects tr) = true ->
  ssl.waitFor n s ctx operationName tr
    = (ssl.Running, (tr ++ pending_calls s operationName n)%list).
Proof.
  intros Hp. rewrite <- (Nat.add_0_r n) at 1.
  now rewrite (waitFor_pending s ctx operationName n tr 0 Hp).
Qed.

(** Every turn logs, queries the status, and then makes one more call
    at most. *)
Lemma waitFor_turn_trace (tr : rt.Trace) :
  exists rest,
    snd (ssl.waitFor_turn s ctx operationName tr)
      = (tr ++ wait_line operationName :: status_query s operationName :: rest)%list
    /\ forallb wait_call rest = true.
Proof.
  destruct (fetch s operationName (rt.polls tr)) as [operation|err] eqn:Hf.
  - destruct (String.eqb_spec (Operation.Status operation) ssl.statusDone) as [Hs|Hs].
    + rewrite (waitFor_turn_done s ctx operationName tr operation Hf Hs).
      now exists [done_line operationName].
    + rewrite (waitFor_turn_not_done s ctx operationName tr operation Hf Hs).
      now exists [rt.Select].
  - rewrite (waitFor_turn_fetch_failed s ctx operationName tr err Hf).
    now exists [].
Qed.

(** The loop only adds to the trace, and adds only its own calls. *)
Lemma waitFor_trace (turns : nat) :
  forall tr : rt.Trace,
  exists calls,
    snd (ssl.waitFor turns s ctx operationName tr) = (tr ++ calls)%list
    /\ forallb wait_call calls = true.
Proof.
  induction turns as [|turns IH]; intros tr.
  - exists []. cbn. now rewrite app_nil_r.
  - cbn [ssl.waitFor]. unfold rt.bind at 1.
    destruct (waitFor_turn_trace tr) as (rest & Ht & Hrest).
    destruct (ssl.waitFor_turn s ctx operationName tr) as [[e|] tr1].
    + cbn in Ht |- *. subst tr1.
      exists (wait_line operationName :: status_query s operationName :: rest).
      split; [reflexivity|]. cbn. exact Hrest.
    + cbn in Ht. subst tr1.
      destruct (IH (tr ++ wait_line operationName :: status_query s operationName :: rest)%list)
        as (calls & Hc & Hcalls).
      exists ((wait_line operationName :: status_query s operationName :: rest) ++ calls)%list.
      split.
      * now rewrite Hc, app_assoc.
      * rewrite forallb_app. cbn. now rewrite Hrest, Hcalls.
Qed.

End WaitingRuns.

(** ** [Create] and [Delete] after their first RPC *)

Lemma polls_after_initial_call (s : ssl.sslImpl) (req : request) (tr : rt.Trace) :
  rt.polls (tr ++ [initial_call s req])%list = rt.polls tr.
Proof. rewrite polls_app. destruct req; cbn; lia. Qed.

Lemma selects_after_initial_call (s : ssl.sslImpl) (req : request) (tr : rt.Trace) :
  rt.selects (tr ++ [initial_call s req])%list = rt.selects tr.
Proof. rewrite selects_app. destruct req; cbn; lia. Qed.

Lemma run_rpc_accepted (turns : nat) (s : ssl.sslImpl) (ctx : context.Context)
    (req : request) (tr : rt.Trace) (operation : compute.Operation.t) :
  initial_rpc s req = inl operation ->
  run turns s ctx req tr =
  ssl.waitFor turns s ctx (compute.Operation.Name operation)
    (tr ++ [initial_call s req])%list.
Proof.
  destruct req as [name domains|name]; cbn [initial_rpc run initial_call]; intros H.
  - unfold ssl.Create, rt.bind, rt.SslCertificates_Insert_Do. now rewrite H.
  - unfold ssl.Delete, rt.bind, rt.SslCertificates_Delete_Do. now rewrite H.
Qed.

Lemma run_rpc_rejected (turns : nat) (s : ssl.sslImpl) (ctx : context.Context)
    (req : request) (tr : rt.Trace) (err : extern_error) :
  initial_rpc s req = inr err ->
  run turns s ctx req tr =
  (ssl.Returned (Some (ssl.Extern err)), (tr ++ [initial_call s req])%list).
Proof.
  destruct req as [name domains|name]; cbn [initial_rpc run initial_call]; intros H.
  - unfold ssl.Create, rt.bind, rt.SslCertificates_Insert_Do. now rewrite H.
  - unfold ssl.Delete, rt.bind, rt.SslCertificates_Delete_Do. now rewrite H.
Qed.

(** ** The methods of [Error] *)

Lemma map_Some_in (A : Type) (x : A) (l : list A) :
  In (Some x) (map Some l) <-> In x l.
Proof.
  rewrite in_map_iff. split.
  - intros (y & Hy & Hin). now injection Hy as <-.
  - intros Hin. now exists x.
Qed.

Lemma map_Some_no_nil (A : Type) (l : list A) : ~ In None (map Some l).
Proof. rewrite in_map_iff. now intros (y & Hy & _). Qed.

(** The loop returns true when it reaches an entry with the code, that
    is, when no nil entry comes before one. *)
Lemma IsQuotaExceeded_range_true
    (errs : list (option compute.OperationErrorErrors.t)) :
  ssl.IsQuotaExceeded_range errs = Some true <->
  exists before entry after,
    errs = (map Some before ++ Some entry :: after)%list /\
    compute.OperationErrorErrors.Code entry = ssl.codeQuotaExceeded.
Proof.
  induction errs as [|[err|] rest IH]; cbn [ssl.IsQuotaExceeded_range].
  - split; [discriminate|].
    intros (before & entry & after & H & _). now destruct before.
  - destruct (String.eqb_spec (compute.OperationErrorErrors.Code err)
                ssl.codeQuotaExceeded) as [Hc|Hc].
    + split; [|reflexivity]. intros _. now exists [], err, rest.
    + rewrite IH. split.
      * intros (before & entry & after & -> & He).
        now exists (err :: before), entry, after.
      * intros (before & entry & after & H & He).
        destruct before as [|b before]; cbn in H; injection H as H1 H2.
        -- subst entry. contradiction.
        -- now exists before, entry, after.
  - split; [discriminate|].
    intros (before & entry & after & H & _). now destruct before.
Qed.

(** The loop returns false when it runs to the end: no entry is nil and
    none has the code. *)
Lemma IsQuotaExceeded_range_false
    (errs : list (option compute.OperationErrorErrors.t)) :
  ssl.IsQuotaExceeded_range errs = Some false <->
  exists entries,
    errs = map Some entries /\
    forall entry,
      In entry entries ->
      compute.OperationErrorErrors.Code entry <> ssl.codeQuotaExceeded.
Proof.
  induction errs as [|[err|] rest IH]; cbn [ssl.IsQuotaExceeded_range].
  - split; [|reflexivity]. intros _. exists []. split; [reflexivity|].
    intros entry [].
  - destruct (String.eqb_spec (compute.OperationErrorErrors.Code err)
                ssl.codeQuotaExceeded) as [Hc|Hc].
    + split; [discriminate|].
      intros (entries & H & Hall). destruct entries as [|e entries];
        [discriminate|]. cbn in H. injection H as -> _.
      exfalso. apply (Hall e); [now left|exact Hc].
    + rewrite IH. split.
      * intros (entries & -> & Hall). exists (err :: entries).
        split; [reflexivity|]. intros entry [<-|Hin]; auto.
      * intros (entries & H & Hall). destruct entries as [|e entries];
          [discriminate|]. cbn in H. injection H as -> ->.
        exists entries. split; [reflexivity|].
        intros entry Hin. apply Hall. now right.
  - split; [discriminate|].
    intros (entries & H & _). now destruct entries.
Qed.

(** On a list without nil entry the loop looks for the code. *)
Lemma IsQuotaExceeded_range_no_nil (entries : list compute.OperationErrorErrors.t) :
  ssl.IsQuotaExceeded_range (map Some entries) = Some true <->
  exists entry,
    In entry entries /\
    compute.OperationErrorErrors.Code entry = ssl.codeQuotaExceeded.
Proof.
  rewrite IsQuotaExceeded_range_true. split.
  - intros (before & entry & after & H & Hc). exists entry. split; [|exact Hc].
    apply map_Some_in. rewrite H. apply in_or_app. right. now left.
  - intros (entry & Hin & Hc).
    apply in_split in Hin as (l1 & l2 & ->).
    exists l1, entry, (map Some l2). split; [|exact Hc].
    now rewrite map_app.
Qed.

(** C3, as the code has it.  [IsQuotaExceeded()] returns true if and only
    if the operation the error wraps has an error object in whose list of
    structured errors some entry has code exactly QUOTA_EXCEEDED and no
    nil entry comes before it.  In particular, on a list none of whose
    entries is nil, it returns true if and only if at least one entry has
    that code. *)
Theorem IsQuotaExceeded_iff_entry_reached (e : ssl.Error) :
  (ssl.IsQuotaExceeded e = Some true <->
   exists detail before entry after,
     compute.Operation.Error (ssl.operation e) = Some detail /\
     compute.OperationError.Errors detail
       = (map Some before ++ Some entry :: after)%list /\
     compute.OperationErrorErrors.Code entry = "QUOTA_EXCEEDED")
  /\ (forall detail entries,
      compute.Operation.Error (ssl.operation e) = Some detail ->
      compute.OperationError.Errors detail = map Some entries ->
      (ssl.IsQuotaExceeded e = Some true <->
       exists entry,
         In entry entries /\
         compute.OperationErrorErrors.Code entry = "QUOTA_EXCEEDED")).
Proof.
  unfold ssl.IsQuotaExceeded. split.
  - destruct (compute.Operation.Error (ssl.operation e)) as [detail|].
    + rewrite IsQuotaExceeded_range_true. split.
      * intros (before & entry & after & H & Hc).
        now exists detail, before, entry, after.
      * intros (detail' & before & entry & after & Hd & H & Hc).
        injection Hd as <-. now exists before, entry, after.
    + split; [discriminate|].
      now intros (detail & before & entry & after & Hd & _).
  - intros detail entries -> ->. apply IsQuotaExceeded_range_no_nil.
Qed.

Lemma IsQuotaExceeded_iff_entry_reached_witness :
  ssl.IsQuotaExceeded
    {| ssl.operation := fake.operation "op-2" "DONE" (Some fake.quota_errors) |}
  = Some true.
Proof.
  apply (proj2 (IsQuotaExceeded_iff_entry_reached
                  {| ssl.operation :=
                       fake.operation "op-2" "DONE" (Some fake.quota_errors) |})
           fake.quota_errors [fake.invalid_entry; fake.quota_entry]
           eq_refl eq_refl).
  exists fake.quota_entry. split; [|reflexivity]. right. now left.
Defined.

(** C3, as it is written, fails where a nil entry comes before the entry
    with the code: the list has an entry with code QUOTA_EXCEEDED, and
    the method does not return true (it does not return). *)
Lemma IsQuotaExceeded_nil_entry_counterexample :
  ~ (ssl.IsQuotaExceeded
       {| ssl.operation :=
            fake.operation "op-2" "DONE" (Some fake.nil_then_quota) |}
     = Some true
     <->
     exists entry,
       In (Some entry) (compute.OperationError.Errors fake.nil_then_quota) /\
       compute.OperationErrorErrors.Code entry = "QUOTA_EXCEEDED").
Proof.
  intros [_ H].
  assert (Hno : ssl.IsQuotaExceeded
                  {| ssl.operation :=
                       fake.operation "op-2" "DONE" (Some fake.nil_then_quota) |}
                = None) by reflexivity.
  rewrite Hno in H. enough (@None bool = Some true) by discriminate.
  apply H. exists fake.quota_entry. split; [|reflexivity]. right. now left.
Qed.

(** X12. [IsQuotaExceeded()] returns false exactly when the wrapped
    operation has an error object none of whose structured errors is nil
    and none of whose structured errors has the code QUOTA_EXCEEDED: a
    false answer means the loop ran to the end of the list. *)
Lemma IsQuotaExceeded_false_iff (e : ssl.Error) :
  ssl.IsQuotaExceeded e = Some false <->
  exists detail entries,
    compute.Operation.Error (ssl.operation e) = Some detail /\
    compute.OperationError.Errors detail = map Some entries /\
    forall entry,
      In entry entries ->
      compute.OperationErrorErrors.Code entry <> "QUOTA_EXCEEDED".
Proof.
  unfold ssl.IsQuotaExceeded.
  destruct (compute.Operation.Error (ssl.operation e)) as [detail|].
  - rewrite IsQuotaExceeded_range_false. split.
    + intros (entries & H & Hall). now exists detail, entries.
    + intros (detail' & entries & Hd & H & Hall). injection Hd as <-.
      now exists entries.
  - split; [discriminate|]. now intros (detail & entries & Hd & _).
Qed.

Lemma IsQuotaExceeded_false_iff_witness :
  ssl.IsQuotaExceeded
    {| ssl.operation :=
         fake.operation "op-1" "DONE"
           (Some {| compute.OperationError.Errors := [Some fake.invalid_entry] |}) |}
  = Some false.
Proof.
  apply (proj2 (IsQuotaExceeded_false_iff
                  {| ssl.operation :=
                       fake.operation "op-1" "DONE"
                         (Some {| compute.OperationError.Errors :=
                                    [Some fake.invalid_entry] |}) |})).
  exists {| compute.OperationError.Errors := [Some fake.invalid_entry] |},
    [fake.invalid_entry].
  split; [reflexivity|]. split; [reflexivity|].
  intros entry [<-|[]]. discriminate.
Defined.

(** ** The synchronous calls *)

(** C6. [Get] returns what the collaborator's Get RPC for the bound
    project and the given name returns, certificate or error, as it is,
    and makes that one call. *)
Theorem Get_is_the_collaborator_result (s : ssl.sslImpl) (name : string)
    (tr : rt.Trace) :
  ssl.Get s name tr =
  (compute.SslCertificates_Get (ssl.service s) (ssl.projectID s) name,
   (tr ++ [rt.Get (ssl.projectID s) name])%list).
Proof. reflexivity. Qed.

(** C2. [Exists] answers (true, nil) when [Get] succeeds, (false, nil) when
    the error of [Get] satisfies the not-found predicate, and (false, err)
    with that same error otherwise. *)
Theorem Exists_three_cases (IsNotFound : extern_error -> bool)
    (s : ssl.sslImpl) (name : string) (tr : rt.Trace) :
  (forall certificate,
      fst (ssl.Get s name tr) = inl certificate ->
      fst (ssl.Exists IsNotFound s name tr) = (true, None))
  /\ (forall err,
      fst (ssl.Get s name tr) = inr err -> IsNotFound err = true ->
      fst (ssl.Exists IsNotFound s name tr) = (false, None))
  /\ (forall err,
      fst (ssl.Get s name tr) = inr err -> IsNotFound err = false ->
      fst (ssl.Exists IsNotFound s name tr) = (false, Some err)).
Proof.
  unfold ssl.Exists, rt.bind.
  destruct (ssl.Get s name tr) as [[certificate|err] tr'] eqn:Hg; cbn [fst].
  - repeat split; intros ? H; discriminate || reflexivity.
  - repeat split; intros ? H; try discriminate; injection H as <-; intros Hn;
      now rewrite Hn.
Qed.

Lemma Exists_three_cases_witness :
  fst (ssl.Exists fake.IsNotFound
         (fake.manager 0 9 (fake.operation "op" "DONE" None)) "cert-a" [])
    = (true, None)
  /\ fst (ssl.Exists fake.IsNotFound
         (fake.manager 0 9 (fake.operation "op" "DONE" None)) "cert-z" [])
    = (false, None)
  /\ fst (ssl.Exists fake.IsNotFound
         (fake.manager 0 9 (fake.operation "op" "DONE" None)) "cert-x" [])
    = (false, Some fake.unavailable).
Proof.
  split; [|split].
  - apply (proj1 (Exists_three_cases fake.IsNotFound _ "cert-a" [])
             (fake.certificate "cert-a")).
    reflexivity.
  - apply (proj1 (proj2 (Exists_three_cases fake.IsNotFound _ "cert-z" []))
             fake.not_found); reflexivity.
  - apply (proj2 (proj2 (Exists_three_cases fake.IsNotFound _ "cert-x" []))
             fake.unavailable); reflexivity.
Defined.

(** C7. [List] returns the items of the collaborator's list response as
    they are, in their order, the empty collection included; when the list
    RPC fails it returns no items and the collaborator's error. *)
Theorem List_returns_items_or_error (s : ssl.sslImpl) (tr : rt.Trace) :
  (forall response,
      compute.SslCertificates_List (ssl.service s) (ssl.projectID s) = inl response ->
      fst (ssl.List s tr) = (compute.SslCertificateList.Items response, None))
  /\ (forall err,
      compute.SslCertificates_List (ssl.service s) (ssl.projectID s) = inr err ->
      fst (ssl.List s tr) = ([], Some err))
  /\ snd (ssl.List s tr) = (tr ++ [rt.List (ssl.projectID s)])%list.
Proof.
  unfold ssl.List, rt.bind, rt.SslCertificates_List_Do.
  destruct (compute.SslCertificates_List (ssl.service s) (ssl.projectID s))
    as [response|err]; cbn; repeat split; intros ? H; try discriminate;
    now injection H as <-.
Qed.

Lemma List_returns_items_or_error_witness :
  fst (ssl.List (fake.manager 0 9 (fake.operation "op" "DONE" None)) [])
    = ([fake.certificate "cert-b"; fake.certificate "cert-a"], None)
  /\ fst (ssl.List {| ssl.service := fake.service 0 9 (fake.operation "op" "DONE" None);
                      ssl.projectID := "empty-project" |} [])
    = ([], None)
  /\ fst (ssl.List {| ssl.service := fake.service 0 9 (fake.operation "op" "DONE" None);
                      ssl.projectID := "down-project" |} [])
    = ([], Some fake.unavailable).
Proof.
  split; [|split].
  - apply (proj1 (List_returns_items_or_error _ [])
             {| compute.SslCertificateList.Items :=
                  [fake.certificate "cert-b"; fake.certificate "cert-a"] |}).
    reflexivity.
  - apply (proj1 (List_returns_items_or_error _ [])
             {| compute.SslCertificateList.Items := [] |}).
    reflexivity.
  - apply (proj1 (proj2 (List_returns_items_or_error _ [])) fake.unavailable).
    reflexivity.
Defined.

(** ** The wait loop *)

Section WaitingVerdicts.
Import compute.

Variable s : ssl.sslImpl.
Variable ctx : context.Context.
Variable operationName : string.

(** A turn returns in one of three ways only. *)
Lemma waitFor_turn_returned_cases (tr tr' : rt.Trace) (r : ssl.error) :
  ssl.waitFor_turn s ctx operationName tr = (Some r, tr') ->
  (exists err,
      fetch s operationName (rt.polls tr) = inr err /\
      r = Some (ssl.Errorf ("could not get operation " ++ operationName
                              ++ ": " ++ extern_Error err)))
  \/ (exists operation,
      fetch s operationName (rt.polls tr) = inl operation /\
      Operation.Status operation = ssl.statusDone /\
      r = match Operation.Error operation with
          | None => ssl.nil_error
          | Some _ => Some (ssl.OperationErr {| ssl.operation := operation |})
          end)
  \/ (exists operation err,
      fetch s operationName (rt.polls tr) = inl operation /\
      Operation.Status operation <> ssl.statusDone /\
      context.Done_first ctx (rt.selects tr) = Some err /\
      r = Some (ssl.Extern err)).
Proof.
  intros H.
  destruct (fetch s operationName (rt.polls tr)) as [operation|err] eqn:Hf.
  - destruct (String.eqb_spec (Operation.Status operation) ssl.statusDone) as [Hs|Hs].
    + rewrite (waitFor_turn_done s ctx operationName tr operation Hf Hs) in H.
      injection H as <- _. right. left. now exists operation.
    + rewrite (waitFor_turn_not_done s ctx operationName tr operation Hf Hs) in H.
      destruct (context.Done_first ctx (rt.selects tr)) as [err|] eqn:Hc;
        [|discriminate].
      injection H as <- _. right. right. now exists operation, err.
  - rewrite (waitFor_turn_fetch_failed s ctx operationName tr err Hf) in H.
    injection H as <- _. left. now exists err.
Qed.

(** The operation is found DONE by status query number [n] of the wait. *)
Lemma waitFor_done_after (tr : rt.Trace) (n turns : nat) (operation : Operation.t) :
  pending_for s ctx operationName n (rt.polls tr) (rt.selects tr) = true ->
  fetch s operationName (rt.polls tr + n) = inl operation ->
  Operation.Status operation = ssl.statusDone ->
  n < turns ->
  ssl.waitFor turns s ctx operationName tr =
  (ssl.Returned (match Operation.Error operation with
                 | None => ssl.nil_error
                 | Some _ => Some (ssl.OperationErr {| ssl.operation := operation |})
                 end),
   (tr ++ pending_calls s operationName n
       ++ [wait_line operationName; status_query s operationName;
           done_line operationName])%list).
Proof.
  intros Hp Hf Hs Hn.
  apply (waitFor_reaches s ctx operationName tr _ n turns _ Hp); [|exact Hn].
  rewrite <- (polls_after_pending s operationName) in Hf.
  rewrite (waitFor_turn_done s ctx operationName _ operation Hf Hs).
  now rewrite <- app_assoc.
Qed.

Lemma waitFor_nil_inv (tr : rt.Trace) (turns : nat) :
  fst (ssl.waitFor turns s ctx operationName tr) = ssl.Returned ssl.nil_error ->
  exists n operation,
    n < turns /\
    pending_for s ctx operationName n (rt.polls tr) (rt.selects tr) = true /\
    fetch s operationName (rt.polls tr + n) = inl operation /\
    Operation.Status operation = ssl.statusDone /\
    Operation.Error operation = None.
Proof.
  destruct (ssl.waitFor turns s ctx operationName tr) as [o tr'] eqn:Hw.
  cbn [fst]. intros ->.
  apply waitFor_returned_inv in Hw as (n & Hn & Hp & Ht).
  apply waitFor_turn_returned_cases in Ht.
  rewrite polls_after_pending in Ht.
  destruct Ht as [(err & _ & Hr)|[(operation & Hf & Hs & Hr)|(operation & err & _ & _ & _ & Hr)]];
    try discriminate.
  exists n, operation. repeat split; try assumption.
  destruct (Operation.Error operation); [discriminate|reflexivity].
Qed.

End WaitingVerdicts.

(** C1. Take a call of [Create] or [Delete] whose first RPC succeeds.
    When the operation is found DONE (by status query number [n] of the
    wait, the turns before having met no terminal condition) the call
    returns nil if the operation has no error object and an [Error]
    wrapping that very operation if it has one; and the call returns nil
    only in the first of these two cases. *)
Theorem create_delete_verdict_on_done (s : ssl.sslImpl) (ctx : context.Context)
    (req : request) (tr : rt.Trace) (accepted : compute.Operation.t) :
  initial_rpc s req = inl accepted ->
  (forall n turns operation,
      pending_for s ctx (compute.Operation.Name accepted) n
        (rt.polls tr) (rt.selects tr) = true ->
      fetch s (compute.Operation.Name accepted) (rt.polls tr + n) = inl operation ->
      compute.Operation.Status operation = "DONE" ->
      n < turns ->
      (compute.Operation.Error operation = None ->
       fst (run turns s ctx req tr) = ssl.Returned ssl.nil_error)
      /\ (compute.Operation.Error operation <> None ->
       fst (run turns s ctx req tr)
         = ssl.Returned (Some (ssl.OperationErr {| ssl.operation := operation |}))))
  /\ (forall turns,
      fst (run turns s ctx req tr) = ssl.Returned ssl.nil_error ->
      exists n operation,
        n < turns /\
        pending_for s ctx (compute.Operation.Name accepted) n
          (rt.polls tr) (rt.selects tr) = true /\
        fetch s (compute.Operation.Name accepted) (rt.polls tr + n) = inl operation /\
        compute.Operation.Status operation = "DONE" /\
        compute.Operation.Error operation = None).
Proof.
  intros Hrpc. split.
  - intros n turns operation Hp Hf Hs Hn.
    rewrite (run_rpc_accepted turns s ctx req tr accepted Hrpc).
    rewrite <- (polls_after_initial_call s req tr) in Hp, Hf.
    rewrite <- (selects_after_initial_call s req tr) in Hp.
    rewrite (waitFor_done_after s ctx _ _ n turns operation Hp Hf Hs Hn).
    cbn [fst]. split; intros He.
    + now rewrite He.
    + destruct (compute.Operation.Error operation); [reflexivity|contradiction].
  - intros turns H.
    rewrite (run_rpc_accepted turns s ctx req tr accepted Hrpc) in H.
    apply waitFor_nil_inv in H.
    now rewrite polls_after_initial_call, selects_after_initial_call in H.
Qed.

Lemma create_delete_verdict_on_done_witness :
  fst (ssl.Create 3 (fake.manager 2 9 (fake.operation "op-1" "DONE" None))
         fake.background "cert-a" ["example.com"] [])
    = ssl.Returned ssl.nil_error
  /\ fst (ssl.Delete 1
         (fake.manager 0 9 (fake.operation "op-2" "DONE" (Some fake.quota_errors)))
         fake.background "cert-b" [])
    = ssl.Returned
        (Some (ssl.OperationErr
                 {| ssl.operation :=
                      fake.operation "op-2" "DONE" (Some fake.quota_errors) |})).
Proof.
  split.
  - apply (proj1 (create_delete_verdict_on_done
                    (fake.manager 2 9 (fake.operation "op-1" "DONE" None))
                    fake.background (CreateRequest "cert-a" ["example.com"]) []
                    (fake.operation "op-cert-a" "PENDING" None) eq_refl)
             2 3 (fake.operation "op-1" "DONE" None));
      [reflexivity | reflexivity | reflexivity | lia | reflexivity].
  - apply (proj1 (create_delete_verdict_on_done
                    (fake.manager 0 9
                       (fake.operation "op-2" "DONE" (Some fake.quota_errors)))
                    fake.background (DeleteRequest "cert-b") []
                    (fake.operation "op-cert-b" "PENDING" None) eq_refl)
             0 1 (fake.operation "op-2" "DONE" (Some fake.quota_errors)));
      [reflexivity | reflexivity | reflexivity | lia | discriminate].
Defined.

(** ** Strings *)

Lemma string_app_assoc (a b c : string) : (a ++ b) ++ c = a ++ b ++ c.
Proof. induction a as [|ch a IH]; cbn; [reflexivity|now rewrite IH]. Qed.

Lemma string_app_empty_r (a : string) : a ++ "" = a.
Proof. induction a as [|ch a IH]; cbn; [reflexivity|now rewrite IH]. Qed.

Lemma contains_middle (a b c : string) : contains (a ++ b ++ c) b.
Proof. now exists a, c. Qed.

Lemma contains_end (a b : string) : contains (a ++ b) b.
Proof. exists a, "". now rewrite string_app_empty_r. Qed.

(** ** The wait loop, claim by claim *)

(** C4. When a status query fails (number [n] of the wait, the turns
    before having met no terminal condition), the wait returns the error
    built from the operation name and the text of the cause; the failed
    query is the last call it makes, however many turns the loop was
    allowed: no retry, no further query. *)
Theorem waitFor_fetch_failure_aborts (s : ssl.sslImpl) (ctx : context.Context)
    (operationName : string) (tr : rt.Trace) (n turns : nat) (err : extern_error) :
  pending_for s ctx operationName n (rt.polls tr) (rt.selects tr) = true ->
  fetch s operationName (rt.polls tr + n) = inr err ->
  n < turns ->
  exists message,
    ssl.waitFor turns s ctx operationName tr =
      (ssl.Returned (Some (ssl.Errorf message)),
       (tr ++ pending_calls s operationName n
           ++ [wait_line operationName; status_query s operationName])%list)
    /\ message = "could not get operation " ++ operationName ++ ": " ++ extern_Error err
    /\ contains message operationName
    /\ contains message (extern_Error err)
    /\ rt.polls (snd (ssl.waitFor turns s ctx operationName tr)) = rt.polls tr + n + 1.
Proof.
  intros Hp Hf Hn.
  exists ("could not get operation " ++ operationName ++ ": " ++ extern_Error err).
  assert (Hw : ssl.waitFor turns s ctx operationName tr =
      (ssl.Returned (Some (ssl.Errorf
         ("could not get operation " ++ operationName ++ ": " ++ extern_Error err))),
       (tr ++ pending_calls s operationName n
           ++ [wait_line operationName; status_query s operationName])%list)).
  { apply (waitFor_reaches s ctx operationName tr _ n turns _ Hp); [|exact Hn].
    rewrite <- (polls_after_pending s operationName) in Hf.
    rewrite (waitFor_turn_fetch_failed s ctx operationName _ err Hf).
    now rewrite <- app_assoc. }
  split; [exact Hw|]. split; [reflexivity|]. split; [|split].
  - apply contains_middle.
  - rewrite <- string_app_assoc, <- string_app_assoc. apply contains_end.
  - rewrite Hw. cbn [snd]. rewrite !polls_app, polls_pending_calls. cbn. lia.
Qed.

Lemma waitFor_fetch_failure_aborts_witness :
  ssl.waitFor 7 (fake.manager 5 1 (fake.operation "op-1" "DONE" None))
    fake.background "op-1" []
  = (ssl.Returned
       (Some (ssl.Errorf "could not get operation op-1: connection refused")),
     [rt.Infof "Wait for operation op-1"; rt.OperationsGet "project-1" "op-1";
      rt.Select;
      rt.Infof "Wait for operation op-1"; rt.OperationsGet "project-1" "op-1"]).
Proof.
  destruct (waitFor_fetch_failure_aborts
              (fake.manager 5 1 (fake.operation "op-1" "DONE" None))
              fake.background "op-1" [] 1 7 fake.unavailable)
    as (message & Hw & Hm & _); [reflexivity | reflexivity | lia |].
  rewrite Hw, Hm. reflexivity.
Defined.

(** C5. What [Create] sends to the Insert RPC: one certificate, with the
    given name, the given domains as its managed domains, and type
    MANAGED.  The call is the first [Create] makes and the only Insert. *)
Theorem Create_sends_managed_certificate (turns : nat) (s : ssl.sslImpl)
    (ctx : context.Context) (name : string) (domains : list string)
    (tr : rt.Trace) :
  exists calls,
    snd (ssl.Create turns s ctx name domains tr) =
      (tr ++ rt.Insert (ssl.projectID s)
               {| compute.SslCertificate.Managed :=
                    Some {| compute.SslCertificateManagedSslCertificate.Domains
                              := domains |};
                  compute.SslCertificate.Name := name;
                  compute.SslCertificate.Type_ := "MANAGED" |}
             :: calls)%list
    /\ forallb wait_call calls = true.
Proof.
  destruct (initial_rpc s (CreateRequest name domains)) as [accepted|err] eqn:Hrpc.
  - pose proof (run_rpc_accepted turns s ctx _ tr accepted Hrpc) as Hrun.
    cbn [run initial_call] in Hrun. rewrite Hrun.
    destruct (waitFor_trace s ctx (compute.Operation.Name accepted) turns
                (tr ++ [rt.Insert (ssl.projectID s)
                          (ssl.managed_certificate name domains)])%list)
      as (calls & Hc & Hcalls).
    exists calls. split; [|exact Hcalls].
    rewrite Hc, <- app_assoc. reflexivity.
  - pose proof (run_rpc_rejected turns s ctx _ tr err Hrpc) as Hrun.
    cbn [run initial_call] in Hrun. rewrite Hrun.
    exists []. split; reflexivity.
Qed.

(** A loop allowed at least one turn makes at least one status query. *)
Lemma waitFor_queries_first (s : ssl.sslImpl) (ctx : context.Context)
    (operationName : string) (turns : nat) (tr : rt.Trace) :
  exists calls,
    snd (ssl.waitFor (S turns) s ctx operationName tr) =
      (tr ++ wait_line operationName :: status_query s operationName :: calls)%list.
Proof.
  cbn [ssl.waitFor]. unfold rt.bind at 1.
  destruct (waitFor_turn_trace s ctx operationName tr) as (rest & Ht & _).
  destruct (ssl.waitFor_turn s ctx operationName tr) as [[e|] tr1];
    cbn [snd] in Ht; subst tr1.
  - now exists rest.
  - destruct (waitFor_trace s ctx operationName turns
                (tr ++ wait_line operationName :: status_query s operationName :: rest)%list)
      as (calls & Hc & _).
    exists (rest ++ calls)%list. rewrite Hc, <- app_assoc. reflexivity.
Qed.

(** C8. The wait loop returns from a terminal turn only.
    - A turn whose fetch succeeds with a status other than DONE, and in
      which the context is not done before the timer, returns nothing and
      is followed by another turn.
    - After any number [n] of such turns the loop is still running, and
      when allowed a further turn it makes status query number [n]: there
      is no bound of its own on the number of turns.
    - When the loop returns, it does so from a turn that follows turns of
      that kind and in which the fetch failed, or the operation was DONE,
      or the context was done before the timer. *)
Theorem waitFor_returns_from_terminal_turn_only (s : ssl.sslImpl)
    (ctx : context.Context) (operationName : string) (tr : rt.Trace) :
  (forall operation,
      fetch s operationName (rt.polls tr) = inl operation ->
      compute.Operation.Status operation <> "DONE" ->
      context.Done_first ctx (rt.selects tr) = None ->
      fst (ssl.waitFor_turn s ctx operationName tr) = None
      /\ forall turns,
          ssl.waitFor (S turns) s ctx operationName tr =
          ssl.waitFor turns s ctx operationName
            (tr ++ [wait_line operationName; status_query s operationName;
                    rt.Select])%list)
  /\ (forall n,
      pending_for s ctx operationName n (rt.polls tr) (rt.selects tr) = true ->
      ssl.waitFor n s ctx operationName tr =
        (ssl.Running, (tr ++ pending_calls s operationName n)%list)
      /\ forall turns,
          n < turns ->
          rt.polls tr + n < rt.polls (snd (ssl.waitFor turns s ctx operationName tr)))
  /\ (forall turns r tr',
      ssl.waitFor turns s ctx operationName tr = (ssl.Returned r, tr') ->
      exists n,
        n < turns /\
        pending_for s ctx operationName n (rt.polls tr) (rt.selects tr) = true /\
        ((exists err, fetch s operationName (rt.polls tr + n) = inr err)
         \/ (exists operation,
                fetch s operationName (rt.polls tr + n) = inl operation /\
                compute.Operation.Status operation = "DONE")
         \/ (exists operation err,
                fetch s operationName (rt.polls tr + n) = inl operation /\
                compute.Operation.Status operation <> "DONE" /\
                context.Done_first ctx (rt.selects tr + n) = Some err /\
                r = Some (ssl.Extern err)))).
Proof.
  split; [|split].
  - intros operation Hf Hs Hc.
    pose proof (turn_pending_intro s ctx operationName _ _ operation Hf Hs Hc) as Hp.
    pose proof (waitFor_turn_pending s ctx operationName tr Hp) as Ht.
    split; [now rewrite Ht|].
    intros turns. cbn [ssl.waitFor]. unfold rt.bind at 1. now rewrite Ht.
  - intros n Hp. split.
    + apply waitFor_still_running, Hp.
    + intros turns Hn.
      replace turns with (n + S (turns - S n)) by lia.
      rewrite (waitFor_pending s ctx operationName n tr _ Hp).
      destruct (waitFor_queries_first s ctx operationName (turns - S n)
                  (tr ++ pending_calls s operationName n)%list) as (calls & ->).
      rewrite !polls_app, polls_pending_calls. cbn. lia.
  - intros turns r tr' Hw.
    apply waitFor_returned_inv in Hw as (n & Hn & Hp & Ht).
    exists n. split; [exact Hn|]. split; [exact Hp|].
    apply waitFor_turn_returned_cases in Ht.
    rewrite polls_after_pending, selects_after_pending in Ht.
    destruct Ht as [(err & Hf & _)|[(operation & Hf & Hs & _)|(operation & err & H)]].
    + left. now exists err.
    + right. left. now exists operation.
    + right. right. now exists operation, err.
Qed.

Lemma waitFor_returns_from_terminal_turn_only_witness :
  ssl.waitFor 40 (fake.manager 50 90 (fake.operation "op-1" "DONE" None))
    fake.background "op-1" []
  = (ssl.Running,
     pending_calls (fake.manager 50 90 (fake.operation "op-1" "DONE" None)) "op-1" 40)
  /\ 40 < rt.polls (snd (ssl.waitFor 41
                           (fake.manager 50 90 (fake.operation "op-1" "DONE" None))
                           fake.background "op-1" [])).
Proof.
  destruct (proj1 (proj2 (waitFor_returns_from_terminal_turn_only
                            (fake.manager 50 90 (fake.operation "op-1" "DONE" None))
                            fake.background "op-1" []))
              40 eq_refl) as [Hrun Hmore].
  split.
  - exact Hrun.
  - apply (Hmore 41). lia.
Defined.

(** C9. An operation found DONE with an error object whose list of
    structured errors is empty still makes the wait return an [Error]
    wrapping it; that error is not a quota error, and its message ends
    with the join of no entries, the empty string. *)
Theorem waitFor_done_with_empty_error_list (s : ssl.sslImpl)
    (ctx : context.Context) (operationName : string) (tr : rt.Trace)
    (n turns : nat) (operation : compute.Operation.t) :
  pending_for s ctx operationName n (rt.polls tr) (rt.selects tr) = true ->
  fetch s operationName (rt.polls tr + n) = inl operation ->
  compute.Operation.Status operation = "DONE" ->
  compute.Operation.Error operation = Some {| compute.OperationError.Errors := [] |} ->
  n < turns ->
  fst (ssl.waitFor turns s ctx operationName tr)
    = ssl.Returned (Some (ssl.OperationErr {| ssl.operation := operation |}))
  /\ ssl.IsQuotaExceeded {| ssl.operation := operation |} = Some false
  /\ ssl.Error_Error {| ssl.operation := operation |}
     = Some ("operation " ++ compute.Operation.Name operation ++ " "
             ++ compute.Operation.Status operation ++ ". Status: "
             ++ compute.Operation.HttpErrorMessage operation ++ " ("
             ++ fmt_d (compute.Operation.HttpErrorStatusCode operation)
             ++ "), errors: " ++ strings_Join [] ", ")
  /\ strings_Join [] ", " = "".
Proof.
  intros Hp Hf Hs He Hn. repeat split.
  - rewrite (waitFor_done_after s ctx operationName tr n turns operation Hp Hf Hs Hn).
    cbn [fst]. now rewrite He.
  - unfold ssl.IsQuotaExceeded. cbn [ssl.operation]. now rewrite He.
  - unfold ssl.Error_Error. cbn [ssl.operation]. now rewrite He.
Qed.

Lemma waitFor_done_with_empty_error_list_witness :
  fst (ssl.waitFor 2
         (fake.manager 1 9 (fake.operation "op-1" "DONE" (Some fake.no_errors)))
         fake.background "op-1" [])
    = ssl.Returned
        (Some (ssl.OperationErr
                 {| ssl.operation :=
                      fake.operation "op-1" "DONE" (Some fake.no_errors) |}))
  /\ ssl.Error_Error
       {| ssl.operation := fake.operation "op-1" "DONE" (Some fake.no_errors) |}
     = Some "operation op-1 DONE. Status:  (0), errors: ".
Proof.
  destruct (waitFor_done_with_empty_error_list
              (fake.manager 1 9 (fake.operation "op-1" "DONE" (Some fake.no_errors)))
              fake.background "op-1" [] 1 2
              (fake.operation "op-1" "DONE" (Some fake.no_errors)))
    as (Hw & _ & Hm & _);
    [reflexivity | reflexivity | reflexivity | reflexivity | lia |].
  split; [exact Hw|]. rewrite Hm. reflexivity.
Defined.

(** C10. The context is consulted only in a turn whose fetch found the
    operation not DONE.  Take a call of [Create] or [Delete] whose first
    RPC succeeds, with a context that is already done, so that the first
    [select] would deliver its error.  The call still makes its first
    status query; if that finds the operation DONE without an error object
    the call returns nil, having made no [select]; if it finds the
    operation not DONE the call returns the error of the context. *)
Theorem cancelled_context_fetches_first (s : ssl.sslImpl) (ctx : context.Context)
    (req : request) (tr : rt.Trace) (accepted : compute.Operation.t)
    (cancellation : extern_error) (turns : nat) :
  initial_rpc s req = inl accepted ->
  context.Done_first ctx (rt.selects tr) = Some cancellation ->
  0 < turns ->
  (exists calls,
      snd (run turns s ctx req tr) =
        (tr ++ initial_call s req
            :: wait_line (compute.Operation.Name accepted)
            :: status_query s (compute.Operation.Name accepted) :: calls)%list)
  /\ (forall operation,
      fetch s (compute.Operation.Name accepted) (rt.polls tr) = inl operation ->
      compute.Operation.Status operation = "DONE" ->
      compute.Operation.Error operation = None ->
      run turns s ctx req tr =
        (ssl.Returned ssl.nil_error,
         (tr ++ [initial_call s req;
                 wait_line (compute.Operation.Name accepted);
                 status_query s (compute.Operation.Name accepted);
                 done_line (compute.Operation.Name accepted)])%list))
  /\ (forall operation,
      fetch s (compute.Operation.Name accepted) (rt.polls tr) = inl operation ->
      compute.Operation.Status operation <> "DONE" ->
      run turns s ctx req tr =
        (ssl.Returned (Some (ssl.Extern cancellation)),
         (tr ++ [initial_call s req;
                 wait_line (compute.Operation.Name accepted);
                 status_query s (compute.Operation.Name accepted);
                 rt.Select])%list)).
Proof.
  intros Hrpc Hc Hturns.
  rewrite (run_rpc_accepted turns s ctx req tr accepted Hrpc).
  destruct turns as [|turns]; [lia|].
  split; [|split].
  - destruct (waitFor_queries_first s ctx (compute.Operation.Name accepted) turns
                (tr ++ [initial_call s req])%list) as (calls & ->).
    exists calls. now rewrite <- app_assoc.
  - intros operation Hf Hs He.
    rewrite <- (polls_after_initial_call s req tr) in Hf.
    cbn [ssl.waitFor]. unfold rt.bind at 1.
    rewrite (waitFor_turn_done s ctx _ _ operation Hf Hs), He.
    unfold rt.ret. now rewrite <- app_assoc.
  - intros operation Hf Hs.
    rewrite <- (polls_after_initial_call s req tr) in Hf.
    cbn [ssl.waitFor]. unfold rt.bind at 1.
    rewrite (waitFor_turn_not_done s ctx _ _ operation Hf Hs).
    rewrite selects_after_initial_call, Hc.
    unfold rt.ret. now rewrite <- app_assoc.
Qed.

Lemma cancelled_context_fetches_first_witness :
  ssl.Create 5 (fake.manager 0 9 (fake.operation "op-1" "DONE" None))
    (fake.cancelled_from 0) "cert-a" ["example.com"] []
  = (ssl.Returned ssl.nil_error,
     [rt.Insert "project-1" (ssl.managed_certificate "cert-a" ["example.com"]);
      rt.Infof "Wait for operation op-cert-a";
      rt.OperationsGet "project-1" "op-cert-a";
      rt.Infof "Operation op-cert-a done"])
  /\ fst (ssl.Delete 5 (fake.manager 3 9 (fake.operation "op-1" "DONE" None))
            (fake.cancelled_from 0) "cert-b" [])
     = ssl.Returned (Some (ssl.Extern fake.canceled)).
Proof.
  split.
  - apply (proj1 (proj2 (cancelled_context_fetches_first
                           (fake.manager 0 9 (fake.operation "op-1" "DONE" None))
                           (fake.cancelled_from 0)
                           (CreateRequest "cert-a" ["example.com"]) []
                           (fake.operation "op-cert-a" "PENDING" None)
                           fake.canceled 5 eq_refl eq_refl (Nat.lt_0_succ 4)))
             (fake.operation "op-1" "DONE" None));
      reflexivity.
  - refine (f_equal fst
              (proj2 (proj2 (cancelled_context_fetches_first
                               (fake.manager 3 9 (fake.operation "op-1" "DONE" None))
                               (fake.cancelled_from 0)
                               (DeleteRequest "cert-b") []
                               (fake.operation "op-cert-b" "PENDING" None)
                               fake.canceled 5 eq_refl eq_refl (Nat.lt_0_succ 4)))
                 (fake.operation "op-cert-b" "RUNNING" None) eq_refl _)).
    discriminate.
Defined.

(** ** The scenarios of the specification, run *)

(** Create of cert-a: two polls find the operation RUNNING, the third DONE
    without error. *)
Example scenario_create_polls_twice_then_done :
  ssl.Create 10 (fake.manager 2 99 (fake.operation "op-1" "DONE" None))
    fake.background "cert-a" ["example.com"] []
  = (ssl.Returned ssl.nil_error,
     [rt.Insert "project-1" (ssl.managed_certificate "cert-a" ["example.com"]);
      rt.Infof "Wait for operation op-cert-a";
      rt.OperationsGet "project-1" "op-cert-a"; rt.Select;
      rt.Infof "Wait for operation op-cert-a";
      rt.OperationsGet "project-1" "op-cert-a"; rt.Select;
      rt.Infof "Wait for operation op-cert-a";
      rt.OperationsGet "project-1" "op-cert-a";
      rt.Infof "Operation op-cert-a done"]).
Proof. reflexivity. Qed.

(** Delete of cert-b: the operation ends DONE with a quota error. *)
Example scenario_delete_quota_exceeded :
  exists e,
    fst (ssl.Delete 10
           (fake.manager 0 99 (fake.operation "op-2" "DONE" (Some fake.quota_errors)))
           fake.background "cert-b" [])
      = ssl.Returned (Some (ssl.OperationErr e))
    /\ ssl.IsQuotaExceeded e = Some true
    /\ ssl.Error_Error e
       = Some ("operation op-2 DONE. Status:  (0), errors: "
               ++ "(INVALID: bad domain), (QUOTA_EXCEEDED: limit reached)").
Proof. eexists. repeat split. Qed.

(** An operation that never gets DONE, with a context done during the
    third wait. *)
Example scenario_cancelled_after_three_polls :
  ssl.waitFor 10 (fake.manager 99 99 (fake.operation "op-3" "DONE" None))
    (fake.cancelled_from 2) "op-3" []
  = (ssl.Returned (Some (ssl.Extern fake.canceled)),
     pending_calls (fake.manager 99 99 (fake.operation "op-3" "DONE" None)) "op-3" 3).
Proof. reflexivity. Qed.

(** A first RPC that is rejected: the error comes back as it is and no
    status query is made. *)
Example scenario_delete_rejected :
  ssl.Delete 10 (fake.manager 0 99 (fake.operation "op-4" "DONE" None))
    fake.background "cert-missing" []
  = (ssl.Returned (Some (ssl.Extern fake.not_found)),
     [rt.Delete "project-1" "cert-missing"]).
Proof. reflexivity. Qed.

(** * Further properties of the package *)

(** ** The message of [Error] *)

Lemma contains_refl (a : string) : contains a a.
Proof. exists "", "". cbn. now rewrite string_app_empty_r. Qed.

Lemma contains_app_l (a b x : string) : contains a x -> contains (a ++ b) x.
Proof.
  intros (before & after & ->). exists before, (after ++ b).
  now rewrite !string_app_assoc.
Qed.

Lemma contains_app_r (a b x : string) : contains b x -> contains (a ++ b) x.
Proof.
  intros (before & after & ->). exists (a ++ before), after.
  now rewrite !string_app_assoc.
Qed.

Lemma contains_trans (a b c : string) :
  contains a b -> contains b c -> contains a c.
Proof.
  intros (before & after & ->) Hc.
  apply contains_app_r, contains_app_l, Hc.
Qed.

(** A joined list contains each of its elements. *)
Lemma contains_strings_Join (elems : list string) (sep x : string) :
  In x elems -> contains (strings_Join elems sep) x.
Proof.
  unfold strings_Join.
  induction elems as [|e rest IH]; intros Hin; [contradiction|].
  cbn [String.concat]. destruct rest as [|e' rest'].
  - destruct Hin as [<-|[]]. apply contains_refl.
  - destruct Hin as [<-|Hin].
    + apply contains_app_l, contains_refl.
    + apply contains_app_r, contains_app_r, IH, Hin.
Qed.

Lemma concat_empty_cons (a : string) (l : list string) :
  String.concat "" (a :: l) = a ++ String.concat "" l.
Proof.
  destruct l as [|b l]; cbn [String.concat].
  - now rewrite string_app_empty_r.
  - reflexivity.
Qed.

(** A join is its first element followed by each other element behind
    the separator. *)
Lemma strings_Join_cons (x : string) (rest : list string) (sep : string) :
  strings_Join (x :: rest) sep
  = x ++ String.concat "" (map (fun y => sep ++ y) rest).
Proof.
  unfold strings_Join. revert x.
  induction rest as [|y rest IH]; intros x.
  - cbn. now rewrite string_app_empty_r.
  - change (String.concat sep (x :: y :: rest))
      with (x ++ sep ++ String.concat sep (y :: rest)).
    rewrite IH. cbn [map]. rewrite concat_empty_cons.
    now rewrite string_app_assoc.
Qed.

(** [%d] writes the decimal numeral of the integer. *)
Lemma fmt_d_is_decimal (z : Z) :
  option_map Z.of_int (NilZero.int_of_string (fmt_d z)) = Some z.
Proof.
  unfold fmt_d. rewrite NilZero.isi.
  - cbn [option_map]. now rewrite DecimalZ.of_to.
  - destruct z; cbn; try discriminate.
    intros H. injection H as H. revert H. apply DecimalPos.Unsigned.to_uint_nonnil.
  - destruct z; cbn; try discriminate.
    intros H. injection H as H. revert H. apply DecimalPos.Unsigned.to_uint_nonnil.
Qed.

(** The loop of [Error()] appends, so on a list without nil entry it
    renders the entries in order. *)
Lemma computeErrors_range_map (entries : list compute.OperationErrorErrors.t) :
  forall acc,
    ssl.computeErrors_range acc (map Some entries)
    = Some (acc ++ map rendered entries)%list.
Proof.
  induction entries as [|entry rest IH]; intros acc;
    cbn [map ssl.computeErrors_range].
  - now rewrite app_nil_r.
  - rewrite IH. unfold slice_append. now rewrite <- app_assoc.
Qed.

(** The loop panics exactly on a list with a nil entry. *)
Lemma computeErrors_range_panics (errs : list (option compute.OperationErrorErrors.t)) :
  forall acc, ssl.computeErrors_range acc errs = None <-> In None errs.
Proof.
  induction errs as [|[err|] rest IH]; intros acc; cbn [ssl.computeErrors_range].
  - split; [discriminate|intros []].
  - rewrite IH. split; [now right|]. now intros [H|H]; [discriminate|].
  - split; [now left|reflexivity].
Qed.

Lemma no_nil_is_map_Some (A : Type) (l : list (option A)) :
  ~ In None l -> exists xs, l = map Some xs.
Proof.
  induction l as [|[x|] l IH]; intros H.
  - now exists [].
  - destruct IH as (xs & ->); [intros Hin; apply H; now right|].
    now exists (x :: xs).
  - exfalso. apply H. now left.
Qed.

Lemma Error_Error_rendering (e : ssl.Error) (detail : compute.OperationError.t)
    (entries : list compute.OperationErrorErrors.t) :
  compute.Operation.Error (ssl.operation e) = Some detail ->
  compute.OperationError.Errors detail = map Some entries ->
  ssl.Error_Error e =
  Some ("operation " ++ compute.Operation.Name (ssl.operation e) ++ " "
        ++ compute.Operation.Status (ssl.operation e) ++ ". Status: "
        ++ compute.Operation.HttpErrorMessage (ssl.operation e) ++ " ("
        ++ fmt_d (compute.Operation.HttpErrorStatusCode (ssl.operation e))
        ++ "), errors: " ++ strings_Join (map rendered entries) ", ").
Proof.
  intros He Hl. unfold ssl.Error_Error, ssl.computeErrors_of.
  now rewrite He, Hl, computeErrors_range_map.
Qed.

Lemma Error_Error_panics (e : ssl.Error) (detail : compute.OperationError.t) :
  compute.Operation.Error (ssl.operation e) = Some detail ->
  ssl.Error_Error e = None <-> In None (compute.OperationError.Errors detail).
Proof.
  intros He. unfold ssl.Error_Error, ssl.computeErrors_of. rewrite He.
  rewrite <- (computeErrors_range_panics _ []).
  now destruct (ssl.computeErrors_range [] (compute.OperationError.Errors detail)).
Qed.

(** When [Error()] returns, the error object is there and no entry is
    nil. *)
Lemma Error_Error_returns_inv (e : ssl.Error) (message : string) :
  ssl.Error_Error e = Some message ->
  exists detail entries,
    compute.Operation.Error (ssl.operation e) = Some detail /\
    compute.OperationError.Errors detail = map Some entries.
Proof.
  intros Hm.
  destruct (compute.Operation.Error (ssl.operation e)) as [detail|] eqn:He.
  - exists detail.
    destruct (no_nil_is_map_Some _ (compute.OperationError.Errors detail))
      as (entries & Hl).
    + intros Hin. apply (Error_Error_panics e detail He) in Hin. congruence.
    + now exists entries.
  - unfold ssl.Error_Error in Hm. rewrite He in Hm. discriminate.
Qed.

Lemma rendering_contains_entry (header : string)
    (entries : list compute.OperationErrorErrors.t)
    (entry : compute.OperationErrorErrors.t) :
  In entry entries ->
  contains (header ++ strings_Join (map rendered entries) ", ") (rendered entry).
Proof.
  intros Hin. apply contains_app_r, contains_strings_Join, in_map, Hin.
Qed.

(** X1. Take an [Error] whose operation carries an error object.
    [Error()] panics exactly when an entry of the structured errors is
    nil.  When none is, it returns the header, which gives the operation
    name, its status, the HTTP message and the HTTP code in decimal,
    followed by the entries rendered as "(code: message)", in their
    order, each after the first behind ", "; so the message names the
    operation, its status, and every entry. *)
Theorem Error_message_lists_every_entry (e : ssl.Error)
    (detail : compute.OperationError.t) :
  compute.Operation.Error (ssl.operation e) = Some detail ->
  (ssl.Error_Error e = None <-> In None (compute.OperationError.Errors detail))
  /\ forall entries,
       compute.OperationError.Errors detail = map Some entries ->
       exists message,
         ssl.Error_Error e = Some message
         /\ message =
            "operation " ++ compute.Operation.Name (ssl.operation e) ++ " "
            ++ compute.Operation.Status (ssl.operation e) ++ ". Status: "
            ++ compute.Operation.HttpErrorMessage (ssl.operation e) ++ " ("
            ++ fmt_d (compute.Operation.HttpErrorStatusCode (ssl.operation e))
            ++ "), errors: "
            ++ match entries with
               | [] => ""
               | first :: rest =>
                   "(" ++ compute.OperationErrorErrors.Code first ++ ": "
                       ++ compute.OperationErrorErrors.Message first ++ ")"
                   ++ String.concat ""
                        (map (fun entry =>
                                ", (" ++ compute.OperationErrorErrors.Code entry
                                      ++ ": "
                                      ++ compute.OperationErrorErrors.Message entry
                                      ++ ")")
                             rest)
               end
         /\ option_map Z.of_int
              (NilZero.int_of_string
                 (fmt_d (compute.Operation.HttpErrorStatusCode (ssl.operation e))))
            = Some (compute.Operation.HttpErrorStatusCode (ssl.operation e))
         /\ contains message (compute.Operation.Name (ssl.operation e))
         /\ contains message (compute.Operation.Status (ssl.operation e))
         /\ forall entry,
              In entry entries ->
              contains message
                ("(" ++ compute.OperationErrorErrors.Code entry ++ ": "
                     ++ compute.OperationErrorErrors.Message entry ++ ")").
Proof.
  intros He. split; [exact (Error_Error_panics e detail He)|].
  intros entries Hl. pose proof (Error_Error_rendering e detail entries He Hl) as Hm.
  eexists. split; [exact Hm|]. split; [|split; [|split; [|split]]].
  - do 9 f_equal. destruct entries as [|first rest]; [reflexivity|].
    cbn [map]. rewrite strings_Join_cons, map_map.
    unfold rendered. rewrite !string_app_assoc. reflexivity.
  - apply fmt_d_is_decimal.
  - apply contains_middle.
  - do 3 apply contains_app_r. apply contains_app_l, contains_refl.
  - intros entry Hin. do 8 apply contains_app_r.
    exact (rendering_contains_entry _ entries entry Hin).
Qed.

Lemma Error_message_lists_every_entry_witness :
  ssl.Error_Error
    {| ssl.operation := fake.operation "op-2" "DONE" (Some fake.quota_errors) |}
  = Some ("operation op-2 DONE. Status:  (0), errors: "
          ++ "(INVALID: bad domain), (QUOTA_EXCEEDED: limit reached)").
Proof.
  destruct (proj2 (Error_message_lists_every_entry
                     {| ssl.operation :=
                          fake.operation "op-2" "DONE" (Some fake.quota_errors) |}
                     fake.quota_errors eq_refl)
              [fake.invalid_entry; fake.quota_entry] eq_refl)
    as (message & Hm & Heq & _).
  rewrite Hm, Heq. reflexivity.
Defined.

(** X2. An error that reports quota exhaustion says so in its message:
    when [IsQuotaExceeded()] is true, every message that [Error()] returns
    contains the code QUOTA_EXCEEDED, and [Error()] does return one when
    no entry of the structured errors is nil. *)
Theorem quota_error_message_names_the_code (e : ssl.Error) :
  ssl.IsQuotaExceeded e = Some true ->
  (forall message,
      ssl.Error_Error e = Some message -> contains message "QUOTA_EXCEEDED")
  /\ (forall detail entries,
      compute.Operation.Error (ssl.operation e) = Some detail ->
      compute.OperationError.Errors detail = map Some entries ->
      exists message,
        ssl.Error_Error e = Some message /\ contains message "QUOTA_EXCEEDED").
Proof.
  intros Hq.
  assert (Hboth : forall detail entries,
             compute.Operation.Error (ssl.operation e) = Some detail ->
             compute.OperationError.Errors detail = map Some entries ->
             exists message,
               ssl.Error_Error e = Some message
               /\ contains message "QUOTA_EXCEEDED").
  { intros detail entries He Hl.
    rewrite (Error_Error_rendering e detail entries He Hl).
    eexists. split; [reflexivity|].
    unfold ssl.IsQuotaExceeded in Hq. rewrite He, Hl in Hq.
    apply IsQuotaExceeded_range_no_nil in Hq as (entry & Hin & Hc).
    apply (contains_trans _ (rendered entry)).
    - do 8 apply contains_app_r.
      exact (rendering_contains_entry _ entries entry Hin).
    - unfold rendered. rewrite Hc. apply contains_middle. }
  split; [|exact Hboth].
  intros message Hm.
  destruct (Error_Error_returns_inv e message Hm) as (detail & entries & He & Hl).
  destruct (Hboth detail entries He Hl) as (message' & Hm' & Hc).
  congruence.
Qed.

Lemma quota_error_message_names_the_code_witness :
  exists message,
    ssl.Error_Error
      {| ssl.operation := fake.operation "op-2" "DONE" (Some fake.quota_errors) |}
    = Some message
    /\ contains message "QUOTA_EXCEEDED".
Proof.
  apply (proj2 (quota_error_message_names_the_code
                  {| ssl.operation :=
                       fake.operation "op-2" "DONE" (Some fake.quota_errors) |}
                  eq_refl)
           fake.quota_errors [fake.invalid_entry; fake.quota_entry]
           eq_refl eq_refl).
Defined.

(** The two methods part ways on a nil entry behind the quota entry:
    [IsQuotaExceeded()] has returned true before reaching it, [Error()]
    runs into it. *)
Example quota_then_nil_entry :
  ssl.IsQuotaExceeded
    {| ssl.operation := fake.operation "op-2" "DONE" (Some fake.quota_then_nil) |}
  = Some true
  /\ ssl.Error_Error
       {| ssl.operation := fake.operation "op-2" "DONE" (Some fake.quota_then_nil) |}
     = None.
Proof. split; reflexivity. Qed.

(** ** The calls of the wait loop *)

Section WaitingShape.
Import compute.

Variable s : ssl.sslImpl.
Variable ctx : context.Context.
Variable operationName : string.

(** What a run of the loop adds to the trace: whole pending turns, then
    nothing (the loop is still running) or the calls of the returning
    turn. *)
Lemma waitFor_trace_shape (turns : nat) :
  forall tr : rt.Trace,
  exists n final,
    n <= turns /\
    snd (ssl.waitFor turns s ctx operationName tr)
      = (tr ++ pending_calls s operationName n ++ final)%list /\
    (final = []
     \/ n < turns /\
        (final = [wait_line operationName; status_query s operationName]
         \/ final = [wait_line operationName; status_query s operationName;
                     done_line operationName]
         \/ final = [wait_line operationName; status_query s operationName;
                     rt.Select])).
Proof.
  induction turns as [|turns IH]; intros tr.
  - exists 0, []. cbn. rewrite app_nil_r. auto.
  - cbn [ssl.waitFor]. unfold rt.bind at 1.
    destruct (fetch s operationName (rt.polls tr)) as [operation|err] eqn:Hf.
    + destruct (String.eqb_spec (Operation.Status operation) ssl.statusDone)
        as [Hs|Hs].
      * rewrite (waitFor_turn_done s ctx operationName tr operation Hf Hs).
        exists 0, [wait_line operationName; status_query s operationName;
                   done_line operationName].
        split; [lia|]. split; [reflexivity|]. right. split; [lia|auto].
      * rewrite (waitFor_turn_not_done s ctx operationName tr operation Hf Hs).
        destruct (context.Done_first ctx (rt.selects tr)) as [err|].
        -- exists 0, [wait_line operationName; status_query s operationName;
                      rt.Select].
           split; [lia|]. split; [reflexivity|]. right. split; [lia|auto].
        -- destruct (IH (tr ++ [wait_line operationName;
                                status_query s operationName; rt.Select])%list)
             as (n & final & Hn & Ht & Hfinal).
           exists (S n), final. split; [lia|]. split.
           ++ rewrite Ht, pending_calls_S, <- !app_assoc. reflexivity.
           ++ destruct Hfinal as [->|[Hlt Hfinal]]; [now left|].
              right. split; [lia|exact Hfinal].
    + rewrite (waitFor_turn_fetch_failed s ctx operationName tr err Hf).
      exists 0, [wait_line operationName; status_query s operationName].
      split; [lia|]. split; [reflexivity|]. right. split; [lia|auto].
Qed.

End WaitingShape.

(** X3. The wait loop queries the status at most once per turn and never
    twice without a [select] (the ten-second wait) in between: what it
    adds to the trace is a number of whole turns "log, status query,
    select" followed by at most one more status query.  All its status
    queries are for the bound project and the awaited operation, and it
    makes no other RPC. *)
Theorem waitFor_waits_between_queries (s : ssl.sslImpl) (ctx : context.Context)
    (operationName : string) (turns : nat) (tr : rt.Trace) :
  exists n final,
    snd (ssl.waitFor turns s ctx operationName tr)
      = (tr ++ concat (repeat
                         [rt.Infof ("Wait for operation " ++ operationName);
                          rt.OperationsGet (ssl.projectID s) operationName;
                          rt.Select] n)
            ++ final)%list
    /\ (final = []
        \/ final = [rt.Infof ("Wait for operation " ++ operationName);
                    rt.OperationsGet (ssl.projectID s) operationName]
        \/ final = [rt.Infof ("Wait for operation " ++ operationName);
                    rt.OperationsGet (ssl.projectID s) operationName;
                    rt.Infof ("Operation " ++ operationName ++ " done")]
        \/ final = [rt.Infof ("Wait for operation " ++ operationName);
                    rt.OperationsGet (ssl.projectID s) operationName;
                    rt.Select])
    /\ rt.polls (snd (ssl.waitFor turns s ctx operationName tr))
       <= rt.polls tr + turns
    /\ rt.polls (snd (ssl.waitFor turns s ctx operationName tr)) + rt.selects tr
       <= S (rt.selects (snd (ssl.waitFor turns s ctx operationName tr))
             + rt.polls tr).
Proof.
  destruct (waitFor_trace_shape s ctx operationName turns tr)
    as (n & final & Hn & Ht & Hfinal).
  exists n, final. split; [exact Ht|]. split.
  - destruct Hfinal as [-> | [_ [-> | [-> | ->]]]]; auto.
  - rewrite Ht, !polls_app, !selects_app, polls_pending_calls,
      selects_pending_calls.
    destruct Hfinal as [-> | [Hlt [-> | [-> | ->]]]]; cbn; lia.
Qed.

(** ** Cancellation *)

(** X4. When the context is done during the wait that follows status
    query number [n] (the operation being not yet DONE there, and the
    turns before having met no terminal condition), the wait returns the
    error of the context as it is; the [select] that saw the context done
    is its last call, so no status query follows the cancellation. *)
Theorem waitFor_cancelled_returns_context_error (s : ssl.sslImpl)
    (ctx : context.Context) (operationName : string) (tr : rt.Trace)
    (n turns : nat) (operation : compute.Operation.t) (err : extern_error) :
  pending_for s ctx operationName n (rt.polls tr) (rt.selects tr) = true ->
  fetch s operationName (rt.polls tr + n) = inl operation ->
  compute.Operation.Status operation <> "DONE" ->
  context.Done_first ctx (rt.selects tr + n) = Some err ->
  n < turns ->
  ssl.waitFor turns s ctx operationName tr =
    (ssl.Returned (Some (ssl.Extern err)),
     (tr ++ pending_calls s operationName n
         ++ [wait_line operationName; status_query s operationName;
             rt.Select])%list)
  /\ rt.polls (snd (ssl.waitFor turns s ctx operationName tr))
     = rt.polls tr + n + 1.
Proof.
  intros Hp Hf Hs Hc Hn.
  assert (Hw : ssl.waitFor turns s ctx operationName tr =
    (ssl.Returned (Some (ssl.Extern err)),
     (tr ++ pending_calls s operationName n
         ++ [wait_line operationName; status_query s operationName;
             rt.Select])%list)).
  { apply (waitFor_reaches s ctx operationName tr _ n turns _ Hp); [|exact Hn].
    rewrite <- (polls_after_pending s operationName) in Hf.
    rewrite <- (selects_after_pending s operationName) in Hc.
    rewrite (waitFor_turn_not_done s ctx operationName _ operation Hf Hs), Hc.
    now rewrite <- app_assoc. }
  split; [exact Hw|].
  rewrite Hw. cbn [snd]. rewrite !polls_app, polls_pending_calls. cbn. lia.
Qed.

Lemma waitFor_cancelled_returns_context_error_witness :
  ssl.waitFor 9 (fake.manager 7 99 (fake.operation "op-3" "DONE" None))
    (fake.cancelled_from 2) "op-3" []
  = (ssl.Returned (Some (ssl.Extern fake.canceled)),
     pending_calls (fake.manager 7 99 (fake.operation "op-3" "DONE" None)) "op-3" 3).
Proof.
  destruct (waitFor_cancelled_returns_context_error
              (fake.manager 7 99 (fake.operation "op-3" "DONE" None))
              (fake.cancelled_from 2) "op-3" [] 2 9
              (fake.operation "op-3" "RUNNING" None) fake.canceled)
    as [Hw _];
    [reflexivity | reflexivity | discriminate | reflexivity | lia |].
  rewrite Hw. reflexivity.
Defined.

(** ** [Create] and [Delete] as a whole *)

(** X5. When the first RPC of [Create] or [Delete] is rejected, the call
    returns the collaborator's error as it is and does nothing more: no
    status query, no wait, whatever the context. *)
Theorem create_delete_rejected_up_front (turns : nat) (s : ssl.sslImpl)
    (ctx : context.Context) (req : request) (tr : rt.Trace) (err : extern_error) :
  initial_rpc s req = inr err ->
  run turns s ctx req tr =
    (ssl.Returned (Some (ssl.Extern err)), (tr ++ [initial_call s req])%list)
  /\ rt.polls (snd (run turns s ctx req tr)) = rt.polls tr
  /\ rt.selects (snd (run turns s ctx req tr)) = rt.selects tr.
Proof.
  intros Hrpc. rewrite (run_rpc_rejected turns s ctx req tr err Hrpc).
  cbn [snd].
  now rewrite polls_after_initial_call, selects_after_initial_call.
Qed.

Lemma create_delete_rejected_up_front_witness :
  ssl.Delete 0 (fake.manager 0 99 (fake.operation "op" "DONE" None))
    (fake.cancelled_from 0) "cert-missing" []
  = (ssl.Returned (Some (ssl.Extern fake.not_found)),
     [rt.Delete "project-1" "cert-missing"]).
Proof.
  apply (proj1 (create_delete_rejected_up_front 0
                  (fake.manager 0 99 (fake.operation "op" "DONE" None))
                  (fake.cancelled_from 0) (DeleteRequest "cert-missing") []
                  fake.not_found eq_refl)).
Defined.

(** The calls of the wait loop, one by one. *)
Lemma waitFor_calls_vocabulary (s : ssl.sslImpl) (ctx : context.Context)
    (operationName : string) (turns : nat) (tr : rt.Trace) :
  exists calls,
    snd (ssl.waitFor turns s ctx operationName tr) = (tr ++ calls)%list
    /\ forall c,
         In c calls ->
         c = rt.OperationsGet (ssl.projectID s) operationName
         \/ c = rt.Select
         \/ exists line, c = rt.Infof line.
Proof.
  destruct (waitFor_trace_shape s ctx operationName turns tr)
    as (n & final & _ & Ht & Hfinal).
  exists (pending_calls s operationName n ++ final)%list.
  split; [exact Ht|].
  assert (Hturn : forall c,
             In c [wait_line operationName; status_query s operationName;
                   rt.Select; done_line operationName] ->
             c = rt.OperationsGet (ssl.projectID s) operationName
             \/ c = rt.Select
             \/ exists line, c = rt.Infof line).
  { intros c [<-|[<-|[<-|[<-|[]]]]]; unfold wait_line, done_line, status_query;
      auto; right; right; eexists; reflexivity. }
  intros c Hin. apply Hturn. apply in_app_or in Hin as [Hin|Hin].
  - unfold pending_calls in Hin. apply in_concat in Hin as (turn & Hrep & Hin).
    apply repeat_spec in Hrep. subst turn.
    destruct Hin as [<-|[<-|[<-|[]]]]; cbn; auto.
  - destruct Hfinal as [-> | [_ [-> | [-> | ->]]]]; cbn in Hin |- *; tauto.
Qed.



Lemma IsQuotaExceeded_range_returns (entries : list compute.OperationErrorErrors.t) :
  exists quota, ssl.IsQuotaExceeded_range (map Some entries) = Some quota.
Proof.
  induction entries as [|entry rest IH]; cbn [map ssl.IsQuotaExceeded_range].
  - now exists false.
  - destruct (compute.OperationErrorErrors.Code entry =? ssl.codeQuotaExceeded);
      [now exists true|exact IH].
Qed.

(** X8. An [Error] that [Create] or [Delete] hands out wraps an operation
    that is DONE and has an error object, so the dereference of
    [operation.Error] in its methods does not panic.  [Error()] on it
    panics exactly when an entry of the structured errors is nil; when
    none is, [Error()] returns a message and [IsQuotaExceeded()] a
    boolean. *)
Theorem create_delete_Error_is_well_formed (turns : nat) (s : ssl.sslImpl)
    (ctx : context.Context) (req : request) (tr tr' : rt.Trace) (e : ssl.Error) :
  run turns s ctx req tr = (ssl.Returned (Some (ssl.OperationErr e)), tr') ->
  compute.Operation.Status (ssl.operation e) = "DONE"
  /\ exists detail,
       compute.Operation.Error (ssl.operation e) = Some detail
       /\ (ssl.Error_Error e = None
           <-> In None (compute.OperationError.Errors detail))
       /\ forall entries,
            compute.OperationError.Errors detail = map Some entries ->
            (exists message, ssl.Error_Error e = Some message)
            /\ (exists quota, ssl.IsQuotaExceeded e = Some quota).
Proof.
  intros Hrun.
  destruct (initial_rpc s req) as [accepted|err] eqn:Hrpc.
  - rewrite (run_rpc_accepted _ s ctx req tr accepted Hrpc) in Hrun.
    apply waitFor_returned_inv in Hrun as (n & _ & _ & Ht).
    apply waitFor_turn_returned_cases in Ht.
    destruct Ht as [(err & _ & Hr)|[(operation & _ & Hs & Hr)
                                   |(operation & err & _ & _ & _ & Hr)]];
      try discriminate.
    destruct (compute.Operation.Error operation) as [detail|] eqn:He;
      [|discriminate].
    injection Hr as ->. cbn [ssl.operation]. split; [exact Hs|].
    exists detail. split; [exact He|]. split.
    + exact (Error_Error_panics {| ssl.operation := operation |} detail He).
    + intros entries Hl. split.
      * eexists.
        exact (Error_Error_rendering {| ssl.operation := operation |}
                 detail entries He Hl).
      * unfold ssl.IsQuotaExceeded. cbn [ssl.operation]. rewrite He, Hl.
        apply IsQuotaExceeded_range_returns.
  - rewrite (run_rpc_rejected _ s ctx req tr err Hrpc) in Hrun. discriminate.
Qed.

Lemma create_delete_Error_is_well_formed_witness :
  compute.Operation.Status
    (fake.operation "op-2" "DONE" (Some fake.quota_errors)) = "DONE"
  /\ exists detail,
       Some fake.quota_errors = Some detail
       /\ (ssl.Error_Error
             {| ssl.operation :=
                  fake.operation "op-2" "DONE" (Some fake.quota_errors) |}
           = None
           <-> In None (compute.OperationError.Errors detail))
       /\ forall entries,
            compute.OperationError.Errors detail = map Some entries ->
            (exists message,
                ssl.Error_Error
                  {| ssl.operation :=
                       fake.operation "op-2" "DONE" (Some fake.quota_errors) |}
                = Some message)
            /\ (exists quota,
                ssl.IsQuotaExceeded
                  {| ssl.operation :=
                       fake.operation "op-2" "DONE" (Some fake.quota_errors) |}
                = Some quota).
Proof.
  apply (create_delete_Error_is_well_formed 1
           (fake.manager 0 99 (fake.operation "op-2" "DONE" (Some fake.quota_errors)))
           fake.background (DeleteRequest "cert-b") [] _
           {| ssl.operation :=
                fake.operation "op-2" "DONE" (Some fake.quota_errors) |}
           eq_refl).
Defined.

(** The service may well answer with a nil entry: the [Error] is handed
    out all the same, and its [Error()] then panics. *)
Example scenario_delete_nil_entry :
  fst (ssl.Delete 1
         (fake.manager 0 99 (fake.operation "op-2" "DONE" (Some fake.nil_then_quota)))
         fake.background "cert-b" [])
  = ssl.Returned
      (Some (ssl.OperationErr
               {| ssl.operation :=
                    fake.operation "op-2" "DONE" (Some fake.nil_then_quota) |}))
  /\ ssl.Error_Error
       {| ssl.operation :=
            fake.operation "op-2" "DONE" (Some fake.nil_then_quota) |}
     = None.
Proof. split; reflexivity. Qed.

(** ** [Exists], read backwards *)

(** X9. What an answer of [Exists] tells about the certificate.  Absence
    without error is reported only for an error of [Get] that the
    not-found predicate accepts, so no other failure passes for absence;
    an error is reported only with false, and is the error of [Get], one
    the predicate rejects; true is reported only when [Get] succeeded,
    and then without error.  [Exists] makes the one Get call. *)
Theorem Exists_answers_read_backwards (IsNotFound : extern_error -> bool)
    (s : ssl.sslImpl) (name : string) (tr : rt.Trace) :
  (fst (ssl.Exists IsNotFound s name tr) = (false, None) ->
   exists err, fst (ssl.Get s name tr) = inr err /\ IsNotFound err = true)
  /\ (forall found err,
      fst (ssl.Exists IsNotFound s name tr) = (found, Some err) ->
      found = false /\ fst (ssl.Get s name tr) = inr err /\ IsNotFound err = false)
  /\ (forall e,
      fst (ssl.Exists IsNotFound s name tr) = (true, e) ->
      e = None /\ exists certificate, fst (ssl.Get s name tr) = inl certificate)
  /\ snd (ssl.Exists IsNotFound s name tr)
     = (tr ++ [rt.Get (ssl.projectID s) name])%list.
Proof.
  unfold ssl.Exists, rt.bind, ssl.Get, rt.SslCertificates_Get_Do, rt.ret.
  destruct (compute.SslCertificates_Get (ssl.service s) (ssl.projectID s) name)
    as [certificate|err]; [|destruct (IsNotFound err) eqn:Hn]; cbn [fst snd];
    (split; [|split; [|split; [|reflexivity]]]).
  - discriminate.
  - intros found err H. discriminate.
  - intros e H. injection H as <-. split; [reflexivity|]. now exists certificate.
  - intros _. now exists err.
  - intros found err' H. discriminate.
  - intros e H. discriminate.
  - discriminate.
  - intros found err' H. injection H as <- <-. auto.
  - intros e H. discriminate.
Qed.

Lemma Exists_answers_read_backwards_witness :
  exists err,
    fst (ssl.Get (fake.manager 0 9 (fake.operation "op" "DONE" None)) "cert-z" [])
      = inr err
    /\ fake.IsNotFound err = true.
Proof.
  apply (proj1 (Exists_answers_read_backwards fake.IsNotFound
                  (fake.manager 0 9 (fake.operation "op" "DONE" None))
                  "cert-z" [])).
  reflexivity.
Defined.

(** ** The bound project *)

Lemma scoped_to_app (project : string) (calls calls' : rt.Trace) :
  scoped_to project calls -> scoped_to project calls' ->
  scoped_to project (calls ++ calls')%list.
Proof.
  intros H H' c p Hin. apply in_app_or in Hin as [Hin|Hin]; eauto.
Qed.

Lemma scoped_to_one (project : string) (c : rt.Call) :
  (forall p, rpc_project c = Some p -> p = project) ->
  scoped_to project [c].
Proof. intros H c' p [<-|[]]. apply H. Qed.

Lemma run_scoped (turns : nat) (s : ssl.sslImpl) (ctx : context.Context)
    (req : request) (tr : rt.Trace) :
  exists calls,
    snd (run turns s ctx req tr) = (tr ++ calls)%list
    /\ scoped_to (ssl.projectID s) calls.
Proof.
  assert (Hfirst : scoped_to (ssl.projectID s) [initial_call s req]).
  { apply scoped_to_one. destruct req; cbn; congruence. }
  destruct (initial_rpc s req) as [accepted|err] eqn:Hrpc.
  - rewrite (run_rpc_accepted turns s ctx req tr accepted Hrpc).
    destruct (waitFor_calls_vocabulary s ctx (compute.Operation.Name accepted)
                turns (tr ++ [initial_call s req])%list) as (calls & Ht & Hcalls).
    exists ([initial_call s req] ++ calls)%list. split.
    + now rewrite Ht, <- app_assoc.
    + apply scoped_to_app; [exact Hfirst|].
      intros c p Hin Hp.
      destruct (Hcalls c Hin) as [->|[->|(line & ->)]]; cbn in Hp; congruence.
  - rewrite (run_rpc_rejected turns s ctx req tr err Hrpc).
    now exists [initial_call s req].
Qed.

(** X10. A manager addresses every RPC to the project it is bound to:
    whatever [Create], [Delete], [Get], [List] and [Exists] add to the
    trace, each RPC in it (the status queries of the wait included) names
    [projectID]. *)
Theorem every_rpc_names_the_bound_project (s : ssl.sslImpl) (tr : rt.Trace) :
  (forall turns ctx name domains,
      exists calls,
        snd (ssl.Create turns s ctx name domains tr) = (tr ++ calls)%list
        /\ scoped_to (ssl.projectID s) calls)
  /\ (forall turns ctx name,
      exists calls,
        snd (ssl.Delete turns s ctx name tr) = (tr ++ calls)%list
        /\ scoped_to (ssl.projectID s) calls)
  /\ (forall name,
      exists calls,
        snd (ssl.Get s name tr) = (tr ++ calls)%list
        /\ scoped_to (ssl.projectID s) calls)
  /\ (exists calls,
        snd (ssl.List s tr) = (tr ++ calls)%list
        /\ scoped_to (ssl.projectID s) calls)
  /\ (forall IsNotFound name,
      exists calls,
        snd (ssl.Exists IsNotFound s name tr) = (tr ++ calls)%list
        /\ scoped_to (ssl.projectID s) calls).
Proof.
  repeat split.
  - intros turns ctx name domains.
    exact (run_scoped turns s ctx (CreateRequest name domains) tr).
  - intros turns ctx name.
    exact (run_scoped turns s ctx (DeleteRequest name) tr).
  - intros name. exists [rt.Get (ssl.projectID s) name].
    split; [reflexivity|]. apply scoped_to_one. cbn. congruence.
  - exists [rt.List (ssl.projectID s)]. split.
    + unfold ssl.List, rt.bind, rt.SslCertificates_List_Do.
      now destruct (compute.SslCertificates_List (ssl.service s) (ssl.projectID s)).
    + apply scoped_to_one. cbn. congruence.
  - intros IsNotFound name. exists [rt.Get (ssl.projectID s) name]. split.
    + unfold ssl.Exists, rt.bind, ssl.Get, rt.SslCertificates_Get_Do.
      destruct (compute.SslCertificates_Get (ssl.service s) (ssl.projectID s) name)
        as [certificate|err]; [reflexivity|].
      now destruct (IsNotFound err).
    + apply scoped_to_one. cbn. congruence.
Qed.

(** X11. [New] fails exactly when the construction of the service fails,
    and then with that error; when the construction succeeds, [New]
    returns the manager that holds the service built and is bound to the
    given project, to which every RPC of its [Create] and [Delete] is
    then addressed. *)
Theorem New_binds_the_given_project (Client : Type)
    (compute_New : Client -> compute.Service + extern_error)
    (client : Client) (projectID : string) :
  (forall err,
      compute_New client = inr err <->
      ssl.New Client compute_New client projectID = inr err)
  /\ (forall service,
      compute_New client = inl service <->
      ssl.New Client compute_New client projectID
      = inl {| ssl.service := service; ssl.projectID := projectID |})
  /\ (forall s,
      ssl.New Client compute_New client projectID = inl s ->
      compute_New client = inl (ssl.service s)
      /\ ssl.projectID s = projectID
      /\ forall turns ctx req tr,
           exists calls,
             snd (run turns s ctx req tr) = (tr ++ calls)%list
             /\ scoped_to projectID calls).
Proof.
  unfold ssl.New. destruct (compute_New client) as [service|err].
  - split; [|split].
    + intros err. split; discriminate.
    + intros service'. split; intros H; now injection H as <-.
    + intros s H. injection H as <-. cbn [ssl.service ssl.projectID].
      repeat split. intros turns ctx req tr.
      exact (run_scoped turns
               {| ssl.service := service; ssl.projectID := projectID |}
               ctx req tr).
  - split; [|split].
    + intros err'. split; intros H; now injection H as <-.
    + intros service. split; discriminate.
    + intros s H. discriminate.
Qed.

Lemma New_binds_the_given_project_witness :
  ssl.New (option unit) (fake.compute_New (fake.operation "op" "DONE" None))
    None "project-9"
  = inr {| extern_Error := "client is nil" |}
  /\ ssl.New (option unit) (fake.compute_New (fake.operation "op" "DONE" None))
       (Some tt) "project-9"
     = inl {| ssl.service := fake.service 0 9 (fake.operation "op" "DONE" None);
              ssl.projectID := "project-9" |}.
Proof.
  split.
  - apply (proj1 (New_binds_the_given_project (option unit)
                    (fake.compute_New (fake.operation "op" "DONE" None))
                    None "project-9")).
    reflexivity.
  - apply (proj1 (proj2 (New_binds_the_given_project (option unit)
                           (fake.compute_New (fake.operation "op" "DONE" None))
                           (Some tt) "project-9"))).
    reflexivity.
Defined.
